(** * NoFeds: the cryptographic messaging layer and the replicated state store

    A shallow embedding of [src/page.tsx]: the classes [EncryptionManager]
    and [RealTimeSync] and the handlers of [ChatApp] that use them.

    - JavaScript strings are lists of UTF-16 code units ([Z], 0..65535);
      [Uint8Array]s are lists of [Byte.byte].
    - The platform functions the source calls ([btoa], [atob],
      [TextEncoder.encode], [TextDecoder.decode]) are written out after the
      standards that define them (RFC 4648, WHATWG Infra and Encoding).
    - [window.crypto] (AES-GCM, the generators) and [JSON] are interfaces,
      the classes [WebCrypto] and [JSON]; what is assumed of them is said
      where it is used. [WebCrypto] also says how many arguments the
      engine takes in a call: [f(...array)] throws a [RangeError] for a
      longer array.
    - [localStorage] and [BroadcastChannel] are small state machines.
    - Exceptions are values of [res]; code that mutates objects threads the
      state explicitly. An [await] is the call it waits for: one handler
      runs at a time. *)

From Stdlib Require Import ZArith List Lia Bool.
From Stdlib.Strings Require Import Byte.
From stdpp Require Import base option list strings gmap pretty.

Local Open Scope Z_scope.

(** ** Exceptions *)

Inductive JsError : Type :=
| NoRoomKey              (* new Error("No room key found") *)
| InvalidCharacterError  (* DOMException of btoa / atob *)
| OperationError         (* DOMException of crypto.subtle: tag check failed *)
| NotSupportedError      (* crypto.subtle.generateKey refuses *)
| SecurityError          (* localStorage access denied *)
| QuotaExceededError     (* localStorage.setItem over quota *)
| SyntaxError            (* JSON.parse *)
| InvalidStateError      (* BroadcastChannel.postMessage after close() *)
| RangeError.            (* f(...array): more arguments than the engine takes *)

Inductive res (A : Type) : Type :=
| Ok (a : A)
| Throw (e : JsError).
Arguments Ok {A} a.
Arguments Throw {A} e.

Definition is_ok {A} (r : res A) : bool :=
  match r with Ok _ => true | Throw _ => false end.

(** The value returned, [d] for an exception. *)
Definition returned {A} (d : A) (r : res A) : A :=
  match r with Ok a => a | Throw _ => d end.

(** ** Bytes *)

Definition byte_to_Z (b : byte) : Z := Z.of_N (Byte.to_N b).

(** Storing a number into a [Uint8Array] keeps it modulo 256. *)
Definition byte_of_Z (z : Z) : byte :=
  default x00 (Byte.of_N (Z.to_N (z mod 256))).

(** A JavaScript string: its UTF-16 code units. *)
Definition js_string (s : list Z) : Prop := Forall (fun c => 0 <= c < 65536) s.

Definition octet (b : Z) : Prop := 0 <= b < 256.
Definition sextet (i : Z) : Prop := 0 <= i < 64.

(** [String.fromCharCode(b1, ..., bn)]: the string of the code units
    given. The call that spreads an array into these arguments is
    [spread] below. *)
Definition String_fromCharCode (bs : list byte) : list Z := byte_to_Z <$> bs.

(** [new Uint8Array(s.split("").map((c) => c.charCodeAt(0)))] *)
Definition bytes_of_binary_string (s : list Z) : list byte := byte_of_Z <$> s.

(** ** Base64: [btoa] and [atob] *)

Module Base64.

(** The alphabet of RFC 4648, table 1: a sextet to its character code. *)
Definition alphabet (i : Z) : Z :=
  if i <? 26 then 65 + i
  else if i <? 52 then 97 + (i - 26)
  else if i <? 62 then 48 + (i - 52)
  else if i =? 62 then 43
  else 47.

Definition unalphabet (c : Z) : option Z :=
  if (65 <=? c) && (c <=? 90) then Some (c - 65)
  else if (97 <=? c) && (c <=? 122) then Some (c - 97 + 26)
  else if (48 <=? c) && (c <=? 57) then Some (c - 48 + 52)
  else if c =? 43 then Some 62
  else if c =? 47 then Some 63
  else None.

(** Three octets make four sextets; one or two trailing octets make two
    or three, the unused low bits zero. *)
Fixpoint sextets (bs : list Z) : list Z :=
  match bs with
  | a :: b :: c :: rest =>
      a / 4 :: (a mod 4) * 16 + b / 16 :: (b mod 16) * 4 + c / 64 :: c mod 64
        :: sextets rest
  | [a; b] => [a / 4; (a mod 4) * 16 + b / 16; (b mod 16) * 4]
  | [a] => [a / 4; (a mod 4) * 16]
  | [] => []
  end.

Definition padding (n : nat) : list Z :=
  match (n mod 3)%nat with
  | 1%nat => [61; 61]
  | 2%nat => [61]
  | _ => []
  end.

Definition is_binary (c : Z) : bool := (0 <=? c) && (c <=? 255).

(** [btoa(s)]: throws when a code unit is above 0xFF. *)
Definition btoa (s : list Z) : res (list Z) :=
  if forallb is_binary s
  then Ok ((alphabet <$> sextets s) ++ padding (length s))
  else Throw InvalidCharacterError.

Definition is_ascii_whitespace (c : Z) : bool :=
  (c =? 9) || (c =? 10) || (c =? 12) || (c =? 13) || (c =? 32).

(** Forgiving-base64 decode, step 2: when the length is a multiple of
    four, one or two trailing [=] are removed. *)
Definition drop_trailing_equals (s : list Z) : list Z :=
  match rev s with
  | c :: r => if c =? 61 then rev r else s
  | [] => s
  end.

Definition strip_padding (s : list Z) : list Z :=
  if (length s mod 4 =? 0)%nat
  then drop_trailing_equals (drop_trailing_equals s)
  else s.

(** Steps 5 to 10: four sextets give three octets; a tail of two or
    three sextets gives one or two octets, the bits left over are
    discarded; a tail of one sextet is a failure. *)
Fixpoint unsextets (ss : list Z) : option (list Z) :=
  match ss with
  | a :: b :: c :: d :: rest =>
      match unsextets rest with
      | Some bs =>
          Some (a * 4 + b / 16 :: (b mod 16) * 16 + c / 4 :: (c mod 4) * 64 + d :: bs)
      | None => None
      end
  | [a; b; c] => Some [a * 4 + b / 16; (b mod 16) * 16 + c / 4]
  | [a; b] => Some [a * 4 + b / 16]
  | [_] => None
  | [] => Some []
  end.

(** [atob(s)] *)
Definition atob (s : list Z) : res (list Z) :=
  let data := filter (fun c => is_ascii_whitespace c = false) s in
  match mapM unalphabet (strip_padding data) ≫= unsextets with
  | Some bs => Ok bs
  | None => Throw InvalidCharacterError
  end.

End Base64.

(** ** UTF-8: [TextEncoder.encode] and [TextDecoder.decode] *)

Module UTF8.

Definition is_lead_surrogate (c : Z) : bool := (0xD800 <=? c) && (c <=? 0xDBFF).
Definition is_trail_surrogate (c : Z) : bool := (0xDC00 <=? c) && (c <=? 0xDFFF).

(** A JavaScript string as scalar values (WebIDL [USVString]): a
    surrogate pair is one code point, an unpaired surrogate becomes
    U+FFFD. *)
Fixpoint scalar_values (s : list Z) : list Z :=
  match s with
  | [] => []
  | c :: rest =>
      if is_lead_surrogate c then
        match rest with
        | d :: rest' =>
            if is_trail_surrogate d
            then 0x10000 + (c - 0xD800) * 0x400 + (d - 0xDC00) :: scalar_values rest'
            else 0xFFFD :: scalar_values rest
        | [] => [0xFFFD]
        end
      else if is_trail_surrogate c then 0xFFFD :: scalar_values rest
      else c :: scalar_values rest
  end.

(** The continuation bytes of the UTF-8 encoder:
    [0x80 | ((cp >> (6 * (count - 1))) & 0x3F)] while [count > 0]. *)
Fixpoint continuation (cp : Z) (count : nat) : list Z :=
  match count with
  | O => []
  | S n => Z.lor 0x80 (Z.land (Z.shiftr cp (6 * Z.of_nat n)) 0x3F) :: continuation cp n
  end.

(** The UTF-8 encoder's handler for one scalar value. *)
Definition encode_scalar (cp : Z) : list Z :=
  if cp <=? 0x7F then [cp]
  else
    let '(count, offset) :=
      if cp <=? 0x7FF then (1%nat, 0xC0)
      else if cp <=? 0xFFFF then (2%nat, 0xE0)
      else (3%nat, 0xF0) in
    Z.shiftr cp (6 * Z.of_nat count) + offset :: continuation cp count.

(** The state of the UTF-8 decoder. *)
Record decoder : Type := Decoder {
  code_point : Z;
  bytes_seen : Z;
  bytes_needed : Z;
  lower_boundary : Z;
  upper_boundary : Z
}.

Definition initial : decoder := Decoder 0 0 0 0x80 0xBF.

(** The decoder's handler when no byte is pending (step 2 of the
    standard's handler): the code points emitted and the next state. *)
Definition lead (b : Z) : list Z * decoder :=
  if (0 <=? b) && (b <=? 0x7F) then ([b], initial)
  else if (0xC2 <=? b) && (b <=? 0xDF) then
    ([], Decoder (Z.land b 0x1F) 0 1 0x80 0xBF)
  else if (0xE0 <=? b) && (b <=? 0xEF) then
    ([], Decoder (Z.land b 0xF) 0 2
           (if b =? 0xE0 then 0xA0 else 0x80) (if b =? 0xED then 0x9F else 0xBF))
  else if (0xF0 <=? b) && (b <=? 0xF4) then
    ([], Decoder (Z.land b 0x7) 0 3
           (if b =? 0xF0 then 0x90 else 0x80) (if b =? 0xF4 then 0x8F else 0xBF))
  else ([0xFFFD], initial).

(** One byte. A byte outside the boundaries is an error (U+FFFD, the
    decoder being non-fatal) and is then read again from the initial
    state. *)
Definition handler (d : decoder) (b : Z) : list Z * decoder :=
  if bytes_needed d =? 0 then lead b
  else if negb ((lower_boundary d <=? b) && (b <=? upper_boundary d)) then
    let '(out, d') := lead b in (0xFFFD :: out, d')
  else
    let cp := Z.lor (Z.shiftl (code_point d) 6) (Z.land b 0x3F) in
    if bytes_seen d + 1 =? bytes_needed d then ([cp], initial)
    else ([], Decoder cp (bytes_seen d + 1) (bytes_needed d) 0x80 0xBF).

(** The whole input; at its end a pending sequence is an error. *)
Fixpoint run (d : decoder) (bs : list Z) : list Z :=
  match bs with
  | [] => if bytes_needed d =? 0 then [] else [0xFFFD]
  | b :: rest => let '(out, d') := handler d b in out ++ run d' rest
  end.

(** A code point as UTF-16 code units. *)
Definition code_units (cp : Z) : list Z :=
  if cp <=? 0xFFFF then [cp]
  else [0xD800 + (cp - 0x10000) / 0x400; 0xDC00 + (cp - 0x10000) mod 0x400].

(** [new TextEncoder().encode(s)] *)
Definition TextEncoder_encode (s : list Z) : list byte :=
  byte_of_Z <$> (scalar_values s ≫= encode_scalar).

(** The decoder was made with [new TextDecoder()]: [ignoreBOM] is
    false, so a byte order mark at the start is not part of the result. *)
Definition strip_BOM (cps : list Z) : list Z :=
  match cps with
  | 0xFEFF :: rest => rest
  | _ => cps
  end.

(** [new TextDecoder().decode(bs)] *)
Definition TextDecoder_decode (bs : list byte) : list Z :=
  strip_BOM (run initial (byte_to_Z <$> bs)) ≫= code_units.

(** The handler over a list of bytes, for the proofs: what is emitted
    and where the decoder stands. *)
Fixpoint steps (d : decoder) (bs : list Z) : list Z * decoder :=
  match bs with
  | [] => ([], d)
  | b :: rest =>
      let '(out, d') := handler d b in
      let '(out', d'') := steps d' rest in (out ++ out', d'')
  end.

Definition is_scalar (cp : Z) : bool :=
  (0 <=? cp) && (cp <=? 0x10FFFF) && negb ((0xD800 <=? cp) && (cp <=? 0xDFFF)).

(** A string without unpaired surrogates. *)
Fixpoint well_formed (s : list Z) : bool :=
  match s with
  | [] => true
  | c :: rest =>
      if is_lead_surrogate c then
        match rest with
        | d :: rest' => is_trail_surrogate d && well_formed rest'
        | [] => false
        end
      else negb (is_trail_surrogate c) && (0 <=? c) && (c <=? 0xFFFF) && well_formed rest
  end.

End UTF8.

(** ** Exceptions thrown, state threaded

    A computation on a state [S]: its result, or the exception it threw,
    and the state it leaves. What was written before a [throw] stays
    written, as in the source. *)

Definition M (S A : Type) : Type := S -> res A * S.

Definition ret {S A} (a : A) : M S A := fun s => (Ok a, s).

Definition throw {S A} (e : JsError) : M S A := fun s => (Throw e, s).

Definition bind {S A B} (m : M S A) (k : A -> M S B) : M S B :=
  fun s =>
    match m s with
    | (Ok a, s') => k a s'
    | (Throw e, s') => (Throw e, s')
    end.

(** [try { m } catch (error) { handler }] *)
Definition try_catch {S A} (m : M S A) (handler : JsError -> M S A) : M S A :=
  fun s =>
    match m s with
    | (Ok a, s') => (Ok a, s')
    | (Throw e, s') => handler e s'
    end.

Definition get {S} : M S S := fun s => (Ok s, s).

Definition put {S} (s : S) : M S unit := fun _ => (Ok tt, s).

Definition lift {S A} (r : res A) : M S A := fun s => (r, s).

Notation "'let!' x ':=' m 'in' k" := (bind m (fun x => k))
  (at level 10, x name, m at level 100, k at level 200, only parsing).
Notation "'do!' m 'in' k" := (bind m (fun _ => k))
  (at level 10, m at level 100, k at level 200, only parsing).

(** A string literal of the source as a JavaScript string. *)
Definition js (s : string) : list Z :=
  (fun a => Z.of_N (Ascii.N_of_ascii a)) <$> String.list_ascii_of_string s.

(** [!s] is false for a string exactly when it is not empty. *)
Definition truthy (s : string) : bool := negb (String.eqb s "").

(** ** [window.crypto], and the engine

    AES-GCM and the generators are the platform's. [AES_GCM_decrypt] is
    [None] when the promise of [subtle.decrypt] is rejected. The
    generators are given by what they will yield: the n-th key of
    [subtle.generateKey] (or the error of a failing provider) and the n-th
    byte of [getRandomValues]. [max_arguments] is the number of arguments
    the engine takes in one call. *)

Class WebCrypto : Type := {
  CryptoKey : Type;
  CryptoKeyPair : Type;
  AES_GCM_encrypt : CryptoKey -> list byte -> list byte -> list byte;
  AES_GCM_decrypt : CryptoKey -> list byte -> list byte -> option (list byte);
  generated_AES_key : nat -> res CryptoKey;
  generated_RSA_pair : nat -> res CryptoKeyPair;
  random_byte : nat -> byte;
  max_arguments : Z
}.

(** [f(...array)]: a call with one argument for each element of the
    array. When the array has more elements than the engine takes
    arguments, the call throws a [RangeError] and [f] does not run. *)
Definition spread `{WebCrypto} {A B : Type} (f : list A -> B) (array : list A) : res B :=
  if Z.of_nat (length array) <=? max_arguments then Ok (f array) else Throw RangeError.

(** Decryption under the key and nonce of the encryption gives the data
    back. *)
Definition aead_correct `{WebCrypto} : Prop :=
  forall key iv data, AES_GCM_decrypt key iv (AES_GCM_encrypt key iv data) = Some data.

(** Decryption under another key is rejected: the tag does not verify. *)
Definition aead_authentic `{WebCrypto} : Prop :=
  forall key key' iv data,
    key <> key' -> AES_GCM_decrypt key' iv (AES_GCM_encrypt key iv data) = None.

(** ** The data of the application *)

Inductive Status : Type := online | away | busy.

Inductive MessageType : Type := user | system.

Module ChatMessage.
Record t : Type := {
  id : string;
  content : list Z;
  sender : string;
  senderId : string;
  timestamp : Z;
  type : MessageType;
  encrypted : option bool
}.
End ChatMessage.

Module User.
Record t : Type := {
  id : string;
  nickname : string;
  status : Status;
  joinedAt : Z;
  avatar : option string;
  statusMessage : option string;
  lastSeen : option Z;
  email : option string;
  hasAccount : bool
}.
End User.

Module Account.
Record t : Type := {
  id : string;
  nickname : string;
  password : string;
  createdAt : Z;
  avatar : option string;
  isTemporary : option bool
}.
End Account.

Module Room.
Record t : Type := {
  id : string;
  name : string;
  userCount : Z;
  hasPassword : bool;
  password : option string;
  description : option string;
  createdBy : string
}.
End Room.

(** [AppData] as the handlers read it: an object any of whose fields may
    be missing ([data.users || []], [data.messages && ...],
    [savedData?.accounts]). *)
Module AppData.
Record t : Type := {
  users : option (list User.t);
  rooms : option (list Room.t);
  messages : option (gmap string (list ChatMessage.t));
  accounts : option (list Account.t)
}.

(** [{ users: [], rooms: [], messages: {}, accounts: [] }] *)
Definition empty : t :=
  {| users := Some []; rooms := Some []; messages := Some ∅; accounts := Some [] |}.

(** [{ ...data, accounts: l }] *)
Definition with_accounts (l : list Account.t) (data : t) : t :=
  {| users := users data; rooms := rooms data; messages := messages data;
     accounts := Some l |}.

(** [{ ...data, users: l }] *)
Definition with_users (l : list User.t) (data : t) : t :=
  {| users := Some l; rooms := rooms data; messages := messages data;
     accounts := accounts data |}.
End AppData.

(** ** [class EncryptionManager] *)

Record EncryptionManager `{WebCrypto} : Type := {
  keyPair : option CryptoKeyPair;
  roomKeys : gmap string CryptoKey
}.

(** The manager of a tab, and how much the tab has drawn from the
    generators of [window.crypto]. *)
Record Crypto `{WebCrypto} : Type := {
  encryptionManager : EncryptionManager;
  keys_generated : nat;
  bytes_drawn : nat
}.

Section EncryptionManager.
Context `{WebCrypto}.

(** [window.crypto.subtle.generateKey({ name: "AES-GCM", length: 256 }, ...)] *)
Definition subtle_generateKey_AES : M Crypto CryptoKey :=
  fun c =>
    (generated_AES_key (keys_generated c),
     {| encryptionManager := encryptionManager c;
        keys_generated := S (keys_generated c);
        bytes_drawn := bytes_drawn c |}).

(** [window.crypto.subtle.generateKey({ name: "RSA-OAEP", ... }, ...)] *)
Definition subtle_generateKey_RSA : M Crypto CryptoKeyPair :=
  fun c =>
    (generated_RSA_pair (keys_generated c),
     {| encryptionManager := encryptionManager c;
        keys_generated := S (keys_generated c);
        bytes_drawn := bytes_drawn c |}).

(** The [n] bytes the generator yields next. *)
Definition next_random_bytes (n : nat) (c : Crypto) : list byte :=
  random_byte <$> seq (bytes_drawn c) n.

(** [window.crypto.getRandomValues(new Uint8Array(n))] *)
Definition getRandomValues (n : nat) : M Crypto (list byte) :=
  fun c =>
    (Ok (next_random_bytes n c),
     {| encryptionManager := encryptionManager c;
        keys_generated := keys_generated c;
        bytes_drawn := (bytes_drawn c + n)%nat |}).

Definition set_manager (m : EncryptionManager) : M Crypto unit :=
  fun c =>
    (Ok tt,
     {| encryptionManager := m;
        keys_generated := keys_generated c;
        bytes_drawn := bytes_drawn c |}).

Definition generateKeyPair : M Crypto CryptoKeyPair :=
  let! c := get in
  match keyPair (encryptionManager c) with
  | Some kp => ret kp
  | None =>
      let! kp := subtle_generateKey_RSA in
      let! c := get in
      do! set_manager {| keyPair := Some kp;
                         roomKeys := roomKeys (encryptionManager c) |} in
      ret kp
  end.

Definition generateRoomKey (roomId : string) : M Crypto CryptoKey :=
  let! roomKey := subtle_generateKey_AES in
  let! c := get in
  do! set_manager {| keyPair := keyPair (encryptionManager c);
                     roomKeys := <[roomId := roomKey]> (roomKeys (encryptionManager c)) |} in
  ret roomKey.

Definition encryptMessage (message : list Z) (roomId : string) : M Crypto (list Z) :=
  let! c := get in
  match roomKeys (encryptionManager c) !! roomId with
  | None => throw NoRoomKey
  | Some roomKey =>
      let data := UTF8.TextEncoder_encode message in
      let! iv := getRandomValues 12 in
      let encrypted := AES_GCM_encrypt roomKey iv data in
      let combined := iv ++ encrypted in
      let! binary := lift (spread String_fromCharCode combined) in
      lift (Base64.btoa binary)
  end.

Definition decryptMessage (encryptedMessage : list Z) (roomId : string) : M Crypto (list Z) :=
  let! c := get in
  match roomKeys (encryptionManager c) !! roomId with
  | None => throw NoRoomKey
  | Some roomKey =>
      let! binary := lift (Base64.atob encryptedMessage) in
      let combined := bytes_of_binary_string binary in
      let iv := take 12 combined in
      let encrypted := drop 12 combined in
      match AES_GCM_decrypt roomKey iv encrypted with
      | Some decrypted => ret (UTF8.TextDecoder_decode decrypted)
      | None => throw OperationError
      end
  end.

(** [joinRoom], lines 536 to 540: the key of the room; a failure is
    logged and goes no further. *)
Definition joinRoom (roomId : string) : M Crypto unit :=
  try_catch (do! generateRoomKey roomId in ret tt) (fun _ => ret tt).

Definition decryption_failed : list Z := js "[Encrypted message - decryption failed]".

Definition getDisplayContent (message : ChatMessage.t) (selectedRoom : option string)
  : M Crypto (list Z) :=
  match ChatMessage.encrypted message, selectedRoom with
  | Some true, Some room =>
      if truthy room then
        try_catch (decryptMessage (ChatMessage.content message) room)
                  (fun _ => ret decryption_failed)
      else ret (ChatMessage.content message)
  | _, _ => ret (ChatMessage.content message)
  end.

End EncryptionManager.

(** A small provider, to evaluate the statements on: the tag of a
    ciphertext is the key, a byte; the n-th key and the n-th random byte
    are n, modulo 256, so that the random bytes come again after 256; a
    call takes 65536 arguments. The cipher is correct and authentic in
    the sense above. *)
Definition small_encrypt (key : byte) (iv data : list byte) : list byte := key :: data.

Definition small_decrypt (key : byte) (iv data : list byte) : option (list byte) :=
  match data with
  | tag :: rest => if Byte.eqb tag key then Some rest else None
  | [] => None
  end.

Definition small_crypto : WebCrypto :=
  {| CryptoKey := byte;
     CryptoKeyPair := unit;
     AES_GCM_encrypt := small_encrypt;
     AES_GCM_decrypt := small_decrypt;
     generated_AES_key := fun n => Ok (byte_of_Z (Z.of_nat n));
     generated_RSA_pair := fun _ => Ok tt;
     random_byte := fun n => byte_of_Z (Z.of_nat n);
     max_arguments := 65536 |}.

(** A tab that has just started: no key pair, no room key, nothing drawn. *)
Definition fresh_tab `{WebCrypto} : Crypto :=
  {| encryptionManager := {| keyPair := None; roomKeys := ∅ |};
     keys_generated := 0;
     bytes_drawn := 0 |}.

(** A tab that holds [key] for the room [roomId] and has drawn [n] bytes. *)
Definition tab_with_key `{WebCrypto} (roomId : string) (key : CryptoKey) (n : nat) : Crypto :=
  {| encryptionManager := {| keyPair := None; roomKeys := {[ roomId := key ]} |};
     keys_generated := 1;
     bytes_drawn := n |}.


(** The message a tab with the key 1 sends for "hello". *)
Definition small_message : ChatMessage.t :=
  {| ChatMessage.id := "1700000000000";
     ChatMessage.content :=
       returned [] (@encryptMessage small_crypto (js "hello") "room-42"
                      (@tab_with_key small_crypto "room-42" x01 0)).1;
     ChatMessage.sender := "alice";
     ChatMessage.senderId := "1699999999999";
     ChatMessage.timestamp := 1700000000000;
     ChatMessage.type := user;
     ChatMessage.encrypted := Some true |}.

(** ** The state of [ChatApp] that the handlers below read and set *)

Record ChatState : Type := {
  nickname : string;
  currentUserId : string;
  onlineUsers : list User.t;
  chatRooms : list Room.t;
  selectedRoom : option string;
  messages : list ChatMessage.t;
  currentAccount : option Account.t
}.

Definition setOnlineUsers (l : list User.t) (st : ChatState) : ChatState :=
  {| nickname := nickname st; currentUserId := currentUserId st;
     onlineUsers := l; chatRooms := chatRooms st; selectedRoom := selectedRoom st;
     messages := messages st; currentAccount := currentAccount st |}.

Definition setChatRooms (l : list Room.t) (st : ChatState) : ChatState :=
  {| nickname := nickname st; currentUserId := currentUserId st;
     onlineUsers := onlineUsers st; chatRooms := l; selectedRoom := selectedRoom st;
     messages := messages st; currentAccount := currentAccount st |}.

Definition setMessages (l : list ChatMessage.t) (st : ChatState) : ChatState :=
  {| nickname := nickname st; currentUserId := currentUserId st;
     onlineUsers := onlineUsers st; chatRooms := chatRooms st;
     selectedRoom := selectedRoom st;
     messages := l; currentAccount := currentAccount st |}.

Definition setCurrentAccount (a : option Account.t) (st : ChatState) : ChatState :=
  {| nickname := nickname st; currentUserId := currentUserId st;
     onlineUsers := onlineUsers st; chatRooms := chatRooms st;
     selectedRoom := selectedRoom st;
     messages := messages st; currentAccount := a |}.

(** The callback that the main effect gives to [syncManager.onUpdate]
    (lines 334 to 348). [selectedRoom] and [nickname] are the values of
    the render that ran the effect; the effect runs again when they
    change. *)
Definition handleDataUpdate (selectedRoom : option string) (nickname : string)
    (data : AppData.t) (st : ChatState) : ChatState :=
  let st := setOnlineUsers (default [] (AppData.users data)) st in
  let st := setChatRooms (default [] (AppData.rooms data)) st in
  let st :=
    match AppData.messages data, selectedRoom with
    | Some byRoom, Some room =>
        if truthy room then setMessages (default [] (byRoom !! room)) st else st
    | _, _ => st
    end in
  if truthy nickname then
    setCurrentAccount
      (AppData.accounts data ≫=
         List.find (fun acc => String.eqb (Account.nickname acc) nickname)) st
  else st.

(** ** [localStorage], [BroadcastChannel], [JSON] *)

(** [JSON.parse] throws on a text that is not JSON; a text that is
    parses to [null] or to an object read as [AppData]. *)
Class JSON : Type := {
  JSON_stringify : AppData.t -> string;
  JSON_parse : string -> res (option AppData.t)
}.

(** A message on the channel "nofeds-sync". *)
Inductive BusMessage : Type :=
| DataUpdate (data : AppData.t)              (* { type: "data-update", data } *)
| Update (key : string) (data : list User.t). (* { type: "update", key, data } *)

(** [localStorage]: access may be denied, and [setItem] refuses a value
    longer than what is left. *)
Record Storage : Type := {
  denied : bool;
  quota : nat;
  items : gmap string string
}.

(** A [BroadcastChannel] object: the listeners added to it, and whether
    [close()] was called on it. *)
Record BroadcastChannel : Type := {
  closed : bool;
  listeners : list (BusMessage -> ChatState -> ChatState)
}.

Record RealTimeSync : Type := {
  channel : option BroadcastChannel;
  storageKey : string
}.

(** What the synchronisation of a tab acts on: the storage of the
    device, the messages the tab has posted on the channel, and its
    [syncManager]. *)
Record Sync : Type := {
  localStorage : Storage;
  posted : list BusMessage;
  syncManager : RealTimeSync
}.

(** [new RealTimeSync()]; [supported] is false when
    [new BroadcastChannel(...)] throws. *)
Definition RealTimeSync_new (supported : bool) : RealTimeSync :=
  {| channel := if supported then Some {| closed := false; listeners := [] |} else None;
     storageKey := "nofeds-app-data" |}.

Definition localStorage_getItem (key : string) : M Sync (option string) :=
  fun w =>
    if denied (localStorage w) then (Throw SecurityError, w)
    else (Ok (items (localStorage w) !! key), w).

Definition localStorage_setItem (key value : string) : M Sync unit :=
  fun w =>
    if denied (localStorage w) then (Throw SecurityError, w)
    else if (quota (localStorage w) <? String.length value)%nat
    then (Throw QuotaExceededError, w)
    else (Ok tt,
          {| localStorage :=
               {| denied := false;
                  quota := quota (localStorage w);
                  items := <[key := value]> (items (localStorage w)) |};
             posted := posted w;
             syncManager := syncManager w |}).

Definition set_channel (ch : BroadcastChannel) : M Sync unit :=
  fun w =>
    (Ok tt,
     {| localStorage := localStorage w;
        posted := posted w;
        syncManager := {| channel := Some ch; storageKey := storageKey (syncManager w) |} |}).

(** [channel.postMessage(message)]: an [InvalidStateError] on a closed
    channel. *)
Definition postMessage (ch : BroadcastChannel) (message : BusMessage) : M Sync unit :=
  fun w =>
    if closed ch then (Throw InvalidStateError, w)
    else (Ok tt,
          {| localStorage := localStorage w;
             posted := posted w ++ [message];
             syncManager := syncManager w |}).

(** [channel.addEventListener("message", listener)] *)
Definition addEventListener (ch : BroadcastChannel)
    (listener : BusMessage -> ChatState -> ChatState) : M Sync unit :=
  set_channel {| closed := closed ch; listeners := listeners ch ++ [listener] |}.

(** [channel.close()] *)
Definition channel_close (ch : BroadcastChannel) : M Sync unit :=
  set_channel {| closed := true; listeners := listeners ch |}.

(** A message posted by another tab reaches the listeners of a channel
    that is not closed. *)
Definition deliver (message : BusMessage) (w : Sync) (st : ChatState) : ChatState :=
  match channel (syncManager w) with
  | Some ch =>
      if closed ch then st
      else foldl (fun st listener => listener message st) st (listeners ch)
  | None => st
  end.

(** The tab has no channel, or has closed it. *)
Definition channel_closed (w : Sync) : Prop :=
  match channel (syncManager w) with
  | Some ch => closed ch = true
  | None => True
  end.

(** ** [class RealTimeSync] *)

Section RealTimeSync.
Context `{JSON}.

Definition saveData (data : AppData.t) : M Sync unit :=
  try_catch
    (let! w := get in
     do! localStorage_setItem (storageKey (syncManager w)) (JSON_stringify data) in
     match channel (syncManager w) with
     | Some ch => postMessage ch (DataUpdate data)
     | None => ret tt
     end)
    (fun _ => ret tt).

Definition loadData : M Sync (option AppData.t) :=
  try_catch
    (let! w := get in
     let! stored := localStorage_getItem (storageKey (syncManager w)) in
     match stored with
     | Some text => if truthy text then lift (JSON_parse text) else ret None
     | None => ret None
     end)
    (fun _ => ret None).

Definition onUpdate (callback : AppData.t -> ChatState -> ChatState) : M Sync unit :=
  let! w := get in
  match channel (syncManager w) with
  | None => ret tt
  | Some ch =>
      try_catch
        (addEventListener ch
           (fun event st =>
              match event with
              | DataUpdate data => callback data st
              | Update _ _ => st
              end))
        (fun _ => ret tt)
  end.

Definition broadcastUpdate (key : string) (data : list User.t) : M Sync unit :=
  let! w := get in
  match channel (syncManager w) with
  | None => ret tt
  | Some ch => try_catch (postMessage ch (Update key data)) (fun _ => ret tt)
  end.

Definition close : M Sync unit :=
  try_catch
    (let! w := get in
     match channel (syncManager w) with
     | Some ch => channel_close ch
     | None => ret tt
     end)
    (fun _ => ret tt).

(** [handleBeforeUnload] (lines 287 to 311), on the state of the render
    that registered it. *)
Definition handleBeforeUnload (st : ChatState) : M Sync unit :=
  try_catch
    (match currentAccount st with
     | Some account =>
         match Account.isTemporary account with
         | Some true =>
             let! savedData := loadData in
             do! match savedData with
                 | Some saved =>
                     match AppData.accounts saved with
                     | Some accounts =>
                         let updatedAccounts :=
                           filter (fun acc => Account.id acc <> Account.id account) accounts in
                         saveData (AppData.with_accounts updatedAccounts saved)
                     | None => ret tt
                     end
                 | None => ret tt
                 end in
             let updatedUsers :=
               filter (fun u => User.id u <> currentUserId st) (onlineUsers st) in
             let! currentData := loadData in
             saveData (AppData.with_users updatedUsers (default AppData.empty currentData))
         | _ => ret tt
         end
     | None => ret tt
     end)
    (fun _ => ret tt).

(** [syncData] (lines 358 to 370): the lists of the tab, the messages of
    the selected room over the stored ones, the stored accounts. *)
Definition syncData (st : ChatState) : M Sync unit :=
  let! loaded := loadData in
  let currentData := default AppData.empty loaded in
  let byRoom := default ∅ (AppData.messages currentData) in
  saveData
    {| AppData.users := Some (onlineUsers st);
       AppData.rooms := Some (chatRooms st);
       AppData.messages :=
         Some match selectedRoom st with
              | Some room => if truthy room then <[room := messages st]> byRoom else byRoom
              | None => byRoom
              end;
       AppData.accounts := AppData.accounts currentData |}.

End RealTimeSync.

(** What is stored under the key of the [syncManager]. *)
Definition stored (w : Sync) : option string :=
  items (localStorage w) !! storageKey (syncManager w).

(** A serialisation to evaluate the statements on. An object is
    written as the ids of its users and of its accounts; a text reads as
    the first object of [table] that is written so, and is not JSON when
    there is none. *)
Definition digest (data : AppData.t) : string :=
  String.concat "," (User.id <$> default [] (AppData.users data))
  +:+ "|" +:+
  String.concat "," (Account.id <$> default [] (AppData.accounts data)).

Definition small_json (table : list AppData.t) : JSON :=
  {| JSON_stringify := digest;
     JSON_parse := fun text =>
       match List.find (fun data => String.eqb (digest data) text) table with
       | Some data => Ok (Some data)
       | None => Throw SyntaxError
       end |}.

(** A tab with an open channel, [text] stored (if any) and room for
    values of [n] characters. *)
Definition small_tab (text : option string) (n : nat) : Sync :=
  {| localStorage :=
       {| denied := false; quota := n;
          items := match text with
                   | Some t => {[ "nofeds-app-data" := t ]}
                   | None => ∅
                   end |};
     posted := [];
     syncManager := RealTimeSync_new true |}.

(** A temporary account and its user, a permanent account and its user. *)
Definition temp_account : Account.t :=
  {| Account.id := "100"; Account.nickname := "tmp"; Account.password := "";
     Account.createdAt := 100; Account.avatar := Some "/welcome-new-user.png";
     Account.isTemporary := Some true |}.

Definition bob_account : Account.t :=
  {| Account.id := "200"; Account.nickname := "bob"; Account.password := "secret";
     Account.createdAt := 200; Account.avatar := Some "/welcome-new-user.png";
     Account.isTemporary := Some false |}.

Definition temp_user : User.t :=
  {| User.id := "101"; User.nickname := "tmp"; User.status := online;
     User.joinedAt := 101; User.avatar := Some "/welcome-new-user.png";
     User.statusMessage := Some "Just joined!"; User.lastSeen := None;
     User.email := None; User.hasAccount := true |}.

Definition bob_user : User.t :=
  {| User.id := "201"; User.nickname := "bob"; User.status := online;
     User.joinedAt := 201; User.avatar := Some "/welcome-new-user.png";
     User.statusMessage := Some "Just joined!"; User.lastSeen := None;
     User.email := None; User.hasAccount := true |}.

Definition general_room : Room.t :=
  {| Room.id := "300"; Room.name := "general"; Room.userCount := 1;
     Room.hasPassword := false; Room.password := None; Room.description := None;
     Room.createdBy := "bob" |}.

(** A stored snapshot with both accounts, both users, a room and a
    message. *)
Definition small_snapshot : AppData.t :=
  {| AppData.users := Some [temp_user; bob_user];
     AppData.rooms := Some [general_room];
     AppData.messages := Some {[ "300" := [small_message] ]};
     AppData.accounts := Some [temp_account; bob_account] |}.

(** The snapshots that the serialisation above can read back: the
    stored one, without the temporary account, and then with the users
    [bob] or with no user. *)
Definition small_table : list AppData.t :=
  let stripped := AppData.with_accounts [bob_account] small_snapshot in
  [small_snapshot; stripped;
   AppData.with_users [bob_user] stripped; AppData.with_users [] stripped].

(** The session of the temporary account, its list of users being
    [users]. *)
Definition temp_session (users : list User.t) : ChatState :=
  {| nickname := "tmp"; currentUserId := "101"; onlineUsers := users;
     chatRooms := [general_room]; selectedRoom := Some "300";
     messages := [small_message]; currentAccount := Some temp_account |}.

(** ** More of [EncryptionManager] and its callers *)

(** [crypto.subtle.exportKey("spki", key)]: the bytes of the public key
    of a pair. The export of a 2048-bit RSA key is 294 bytes: the engine
    takes them as the arguments of one call. *)
Class KeyExport `{WebCrypto} : Type := {
  exportKey_spki : CryptoKeyPair -> list byte;
  exportKey_spki_fits : forall kp, Z.of_nat (length (exportKey_spki kp)) <= max_arguments
}.

Section ExportPublicKey.
Context `{WebCrypto} `{!KeyExport}.

(** [this.keyPair] after [generateKeyPair] is the pair which that call
    stored and returned. *)
Definition exportPublicKey : M Crypto (list Z) :=
  let! c := get in
  let! kp := match keyPair (encryptionManager c) with
             | Some kp => ret kp
             | None => generateKeyPair
             end in
  let! binary := lift (spread String_fromCharCode (exportKey_spki kp)) in
  lift (Base64.btoa binary).

End ExportPublicKey.

Definition small_export : @KeyExport small_crypto :=
  @Build_KeyExport small_crypto
    (fun _ => [x30; x82; x01; x22])
    (fun _ => Zle_bool_imp_le 4 65536 eq_refl).

(** A character of a Base64 text: of the alphabet, or [=]. *)
Definition base64_char (c : Z) : bool :=
  match Base64.unalphabet c with
  | Some _ => true
  | None => c =? 61
  end.

(** [WhiteSpace] and [LineTerminator] of ECMAScript, which
    [String.prototype.trim] removes. *)
Definition is_white_space (c : Z) : bool :=
  (c =? 0x9) || (c =? 0xA) || (c =? 0xB) || (c =? 0xC) || (c =? 0xD) || (c =? 0x20)
  || (c =? 0xA0) || (c =? 0x1680) || ((0x2000 <=? c) && (c <=? 0x200A))
  || (c =? 0x2028) || (c =? 0x2029) || (c =? 0x202F) || (c =? 0x205F)
  || (c =? 0x3000) || (c =? 0xFEFF).

Fixpoint trim_start (s : list Z) : list Z :=
  match s with
  | c :: rest => if is_white_space c then trim_start rest else s
  | [] => []
  end.

Fixpoint trim_end (s : list Z) : list Z :=
  match s with
  | c :: rest =>
      match trim_end rest with
      | [] => if is_white_space c then [] else [c]
      | kept => c :: kept
      end
  | [] => []
  end.

(** [s.trim()] *)
Definition String_trim (s : list Z) : list Z := trim_end (trim_start s).

(** [s.toWellFormed()]: every unpaired surrogate becomes U+FFFD. *)
Fixpoint toWellFormed (s : list Z) : list Z :=
  match s with
  | [] => []
  | c :: rest =>
      if UTF8.is_lead_surrogate c then
        match rest with
        | d :: rest' =>
            if UTF8.is_trail_surrogate d then c :: d :: toWellFormed rest'
            else 0xFFFD :: toWellFormed rest
        | [] => [0xFFFD]
        end
      else if UTF8.is_trail_surrogate c then 0xFFFD :: toWellFormed rest
      else c :: toWellFormed rest
  end.

Section SendMessage.
Context `{WebCrypto}.

(** [handleSendMessage] (lines 591 to 612). [idTime] is what [Date.now()]
    gives and [sentAt] what [new Date()] gives; the result is the state
    and the input field it leaves. *)
Definition handleSendMessage (idTime sentAt : Z) (currentUser : string)
    (isEncryptionReady : bool) (messageInput : list Z) (st : ChatState)
  : M Crypto (ChatState * list Z) :=
  match String_trim messageInput, selectedRoom st with
  | _ :: _, Some room =>
      if truthy room && isEncryptionReady then
        try_catch
          (let! encryptedContent := encryptMessage (String_trim messageInput) room in
           let newMessage :=
             {| ChatMessage.id := pretty idTime;
                ChatMessage.content := encryptedContent;
                ChatMessage.sender := currentUser;
                ChatMessage.senderId := currentUserId st;
                ChatMessage.timestamp := sentAt;
                ChatMessage.type := user;
                ChatMessage.encrypted := Some true |} in
           ret (setMessages (messages st ++ [newMessage]) st, []))
          (fun _ => ret (st, messageInput))
      else ret (st, messageInput)
  | _, _ => ret (st, messageInput)
  end.

End SendMessage.

(** ** More of [ChatApp]: subscriptions, the session, the rooms *)

(** The manager after the callbacks were given to [onUpdate] in turn. *)
Definition subscribed (callbacks : list (AppData.t -> ChatState -> ChatState)) (w : Sync)
  : Sync :=
  foldl (fun w callback => (onUpdate callback w).2) w callbacks.

(** [{ ...null }]: an object without any of the fields. *)
Definition AppData_none : AppData.t :=
  {| AppData.users := None; AppData.rooms := None;
     AppData.messages := None; AppData.accounts := None |}.

Section MainEffect.
Context `{JSON}.

(** The main effect (lines 317 to 349), on the state of the render that
    runs it: the state it sets. Nothing in its [try] block throws. *)
Definition mainEffect (st : ChatState) : M Sync ChatState :=
  try_catch
    (let! savedData := loadData in
     let st' :=
       match savedData with
       | Some saved =>
           let st1 := setOnlineUsers (default [] (AppData.users saved)) st in
           let st2 := setChatRooms (default [] (AppData.rooms saved)) st1 in
           let st3 :=
             match AppData.messages saved, selectedRoom st with
             | Some byRoom, Some room =>
                 if truthy room then setMessages (default [] (byRoom !! room)) st2 else st2
             | _, _ => st2
             end in
           if truthy (nickname st) then
             setCurrentAccount
               (AppData.accounts saved ≫=
                  List.find (fun acc => String.eqb (Account.nickname acc) (nickname st)))
               st3
           else st3
       | None => st
       end in
     do! onUpdate (handleDataUpdate (selectedRoom st) (nickname st)) in
     ret st')
    (fun _ => ret st).

End MainEffect.

(** Strings of the forms as JavaScript strings and back; a character of
    a [string] is a code unit below 256. *)
Definition unjs (s : list Z) : string :=
  String.string_of_list_ascii ((fun c => Ascii.ascii_of_N (Z.to_N c)) <$> s).

(** [s.trim()] on such a string. *)
Definition trim (s : string) : string := unjs (String_trim (js s)).

(** The state of the session besides [ChatState], and the texts that
    [alert] has shown. *)
Record Session : Type := {
  chat : ChatState;
  currentUser : string;
  isJoined : bool;
  showSignup : bool;
  showLogin : bool;
  showTempAccount : bool;
  alerts : list string
}.

Definition set_chat (f : ChatState -> ChatState) (s : Session) : Session :=
  {| chat := f (chat s); currentUser := currentUser s; isJoined := isJoined s;
     showSignup := showSignup s; showLogin := showLogin s;
     showTempAccount := showTempAccount s; alerts := alerts s |}.

Definition setCurrentUser (name : string) (s : Session) : Session :=
  {| chat := chat s; currentUser := name; isJoined := isJoined s;
     showSignup := showSignup s; showLogin := showLogin s;
     showTempAccount := showTempAccount s; alerts := alerts s |}.

Definition setIsJoined (b : bool) (s : Session) : Session :=
  {| chat := chat s; currentUser := currentUser s; isJoined := b;
     showSignup := showSignup s; showLogin := showLogin s;
     showTempAccount := showTempAccount s; alerts := alerts s |}.

Definition setShowSignup (b : bool) (s : Session) : Session :=
  {| chat := chat s; currentUser := currentUser s; isJoined := isJoined s;
     showSignup := b; showLogin := showLogin s;
     showTempAccount := showTempAccount s; alerts := alerts s |}.

Definition setShowLogin (b : bool) (s : Session) : Session :=
  {| chat := chat s; currentUser := currentUser s; isJoined := isJoined s;
     showSignup := showSignup s; showLogin := b;
     showTempAccount := showTempAccount s; alerts := alerts s |}.

Definition setShowTempAccount (b : bool) (s : Session) : Session :=
  {| chat := chat s; currentUser := currentUser s; isJoined := isJoined s;
     showSignup := showSignup s; showLogin := showLogin s;
     showTempAccount := b; alerts := alerts s |}.

(** [alert(text)] *)
Definition alert (text : string) (s : Session) : Session :=
  {| chat := chat s; currentUser := currentUser s; isJoined := isJoined s;
     showSignup := showSignup s; showLogin := showLogin s;
     showTempAccount := showTempAccount s; alerts := alerts s ++ [text] |}.

Definition setNickname (name : string) (st : ChatState) : ChatState :=
  {| nickname := name; currentUserId := currentUserId st;
     onlineUsers := onlineUsers st; chatRooms := chatRooms st;
     selectedRoom := selectedRoom st;
     messages := messages st; currentAccount := currentAccount st |}.

Definition setCurrentUserId (userId : string) (st : ChatState) : ChatState :=
  {| nickname := nickname st; currentUserId := userId;
     onlineUsers := onlineUsers st; chatRooms := chatRooms st;
     selectedRoom := selectedRoom st;
     messages := messages st; currentAccount := currentAccount st |}.

Definition setSelectedRoom (room : option string) (st : ChatState) : ChatState :=
  {| nickname := nickname st; currentUserId := currentUserId st;
     onlineUsers := onlineUsers st; chatRooms := chatRooms st;
     selectedRoom := room;
     messages := messages st; currentAccount := currentAccount st |}.

(** [a || "/welcome-new-user.png"] *)
Definition avatar_or_default (a : option string) : string :=
  match a with
  | Some path => if truthy path then path else "/welcome-new-user.png"
  | None => "/welcome-new-user.png"
  end.

(** The user that [handleJoinWithAccount] makes; [userIdTime] is what
    [Date.now()] gives and [joinedAt] what [new Date()] gives. *)
Definition account_user (userIdTime joinedAt : Z) (account : Account.t) : User.t :=
  {| User.id := pretty userIdTime;
     User.nickname := Account.nickname account;
     User.status := online;
     User.joinedAt := joinedAt;
     User.avatar := Some (avatar_or_default (Account.avatar account));
     User.statusMessage := Some "Just joined!";
     User.lastSeen := None;
     User.email := None;
     User.hasAccount := true |}.

Section SessionHandlers.
Context `{JSON}.

(** [handleJoinWithAccount] (lines 758 to 790). *)
Definition handleJoinWithAccount (userIdTime joinedAt : Z) (account : Account.t)
    (s : Session) : M Sync Session :=
  let userId := pretty userIdTime in
  let s := setCurrentUser (Account.nickname account) s in
  let s := set_chat (setCurrentUserId userId) s in
  let s := setIsJoined true s in
  let! savedData := loadData in
  let existingUsers := default [] (savedData ≫= AppData.users) in
  let newUser := account_user userIdTime joinedAt account in
  let updatedUsers :=
    filter (fun u => User.nickname u <> Account.nickname account) existingUsers in
  let newUsersList := updatedUsers ++ [newUser] in
  let s := set_chat (setOnlineUsers newUsersList) s in
  let updatedData := AppData.with_users newUsersList (default AppData_none savedData) in
  do! saveData updatedData in
  do! broadcastUpdate "users" newUsersList in
  ret s.

(** Is the nickname that of a stored account?
    [existingAccounts.some((acc) => acc.nickname === name)] *)
Definition nickname_taken (name : string) (accounts : list Account.t) : bool :=
  existsb (fun acc => String.eqb (Account.nickname acc) name) accounts.

(** [handleTempAccount] (lines 672 to 699). *)
Definition handleTempAccount (idTime createdAt userIdTime joinedAt : Z)
    (tempNickname : string) (s : Session) : M Sync Session :=
  if negb (truthy (trim tempNickname)) then ret s
  else
    let! savedData := loadData in
    let existingAccounts := default [] (savedData ≫= AppData.accounts) in
    if nickname_taken (trim tempNickname) existingAccounts then
      ret (alert "Account with this nickname already exists!" s)
    else
      let tempAccount :=
        {| Account.id := pretty idTime;
           Account.nickname := trim tempNickname;
           Account.password := "";
           Account.createdAt := createdAt;
           Account.avatar := Some "/welcome-new-user.png";
           Account.isTemporary := Some true |} in
      let s := set_chat (setCurrentAccount (Some tempAccount)) s in
      let s := set_chat (setNickname (Account.nickname tempAccount)) s in
      let s := setShowTempAccount false s in
      handleJoinWithAccount userIdTime joinedAt tempAccount s.

(** [handleSignup] (lines 701 to 733). *)
Definition handleSignup (idTime createdAt userIdTime joinedAt : Z)
    (signupNickname signupPassword : string) (s : Session) : M Sync Session :=
  if negb (truthy (trim signupPassword)) || negb (truthy (trim signupNickname)) then ret s
  else
    let! savedData := loadData in
    let existingAccounts := default [] (savedData ≫= AppData.accounts) in
    if nickname_taken (trim signupNickname) existingAccounts then
      ret (alert "Account with this nickname already exists!" s)
    else
      let newAccount :=
        {| Account.id := pretty idTime;
           Account.nickname := trim signupNickname;
           Account.password := signupPassword;
           Account.createdAt := createdAt;
           Account.avatar := Some "/welcome-new-user.png";
           Account.isTemporary := Some false |} in
      let updatedData :=
        AppData.with_accounts (existingAccounts ++ [newAccount])
          (default AppData_none savedData) in
      do! saveData updatedData in
      let s := set_chat (setCurrentAccount (Some newAccount)) s in
      let s := set_chat (setNickname (Account.nickname newAccount)) s in
      let s := setShowSignup false s in
      handleJoinWithAccount userIdTime joinedAt newAccount s.

(** [handleLogin] (lines 735 to 756). *)
Definition handleLogin (userIdTime joinedAt : Z) (loginNickname loginPassword : string)
    (s : Session) : M Sync Session :=
  if negb (truthy (trim loginNickname)) || negb (truthy (trim loginPassword)) then ret s
  else
    let! savedData := loadData in
    let existingAccounts := default [] (savedData ≫= AppData.accounts) in
    match List.find (fun acc => String.eqb (Account.nickname acc) (trim loginNickname)
                               && String.eqb (Account.password acc) loginPassword)
                    existingAccounts with
    | None => ret (alert "Invalid nickname or password!" s)
    | Some account =>
        let s := set_chat (setCurrentAccount (Some account)) s in
        let s := set_chat (setNickname (Account.nickname account)) s in
        let s := setShowLogin false s in
        handleJoinWithAccount userIdTime joinedAt account s
    end.

End SessionHandlers.

(** The room dialogs. *)
Record RoomDialogs : Type := {
  pendingRoomId : option string;
  showPasswordDialog : bool;
  passwordInput : string;
  passwordError : string
}.

(** The user types into the password field. *)
Definition setPasswordInput (text : string) (d : RoomDialogs) : RoomDialogs :=
  {| pendingRoomId := pendingRoomId d; showPasswordDialog := showPasswordDialog d;
     passwordInput := text; passwordError := passwordError d |}.

(** [chatRooms.find((r) => r.id === roomId)] *)
Definition find_room (chatRooms : list Room.t) (roomId : string) : option Room.t :=
  List.find (fun r => String.eqb (Room.id r) roomId) chatRooms.

(** [handleRoomJoin] (lines 503 to 514): the dialogs it leaves, and the
    room it calls [joinRoom] with, if it does. *)
Definition handleRoomJoin (chatRooms : list Room.t) (roomId : string) (d : RoomDialogs)
  : RoomDialogs * option string :=
  match find_room chatRooms roomId with
  | Some {| Room.hasPassword := true |} =>
      ({| pendingRoomId := Some roomId; showPasswordDialog := true;
          passwordInput := ""; passwordError := "" |}, None)
  | _ => (d, Some roomId)
  end.

(** [handlePasswordSubmit] (lines 516 to 530), likewise. *)
Definition handlePasswordSubmit (chatRooms : list Room.t) (d : RoomDialogs)
  : RoomDialogs * option string :=
  match pendingRoomId d with
  | Some pending =>
      if truthy pending then
        let matches :=
          match find_room chatRooms pending ≫= Room.password with
          | Some stored => String.eqb stored (passwordInput d)
          | None => false
          end in
        if matches then
          ({| pendingRoomId := None; showPasswordDialog := false;
              passwordInput := ""; passwordError := "" |}, Some pending)
        else
          ({| pendingRoomId := pendingRoomId d; showPasswordDialog := showPasswordDialog d;
              passwordInput := passwordInput d;
              passwordError := "Incorrect password. Please try again." |}, None)
      else (d, None)
  | None => (d, None)
  end.

(** [formatJoinTime] (lines 448 to 458); [now] is [new Date().getTime()]
    and [date] is [date.getTime()], in milliseconds. *)
Definition formatJoinTime (now date : Z) : string :=
  let diff := now - date in
  let minutes := diff / (1000 * 60) in
  if minutes <? 1 then "Just joined"
  else if minutes <? 60 then pretty minutes +:+ "m ago"
  else
    let hours := minutes / 60 in
    if hours <? 24 then pretty hours +:+ "h ago"
    else "Yesterday".

(** A room with a password, and the accounts and snapshots for the
    statements on [handleSignup]. *)
Definition secret_room : Room.t :=
  {| Room.id := "301"; Room.name := "secret"; Room.userCount := 1;
     Room.hasPassword := true; Room.password := Some "swordfish";
     Room.description := None; Room.createdBy := "bob" |}.

Definition carol_account : Account.t :=
  {| Account.id := "400"; Account.nickname := "carol"; Account.password := "pw";
     Account.createdAt := 401; Account.avatar := Some "/welcome-new-user.png";
     Account.isTemporary := Some false |}.

Definition signup_table : list AppData.t :=
  let stored := AppData.with_accounts [bob_account] small_snapshot in
  [stored; AppData.with_accounts [bob_account; carol_account] stored].

(** The account that [handleSignup] makes. *)
Definition signup_account (idTime createdAt : Z) (name password : string) : Account.t :=
  {| Account.id := pretty idTime;
     Account.nickname := name;
     Account.password := password;
     Account.createdAt := createdAt;
     Account.avatar := Some "/welcome-new-user.png";
     Account.isTemporary := Some false |}.

Definition blank_session (st : ChatState) : Session :=
  {| chat := st; currentUser := ""; isJoined := false; showSignup := true;
     showLogin := true; showTempAccount := true; alerts := [] |}.

Definition closed_dialogs : RoomDialogs :=
  {| pendingRoomId := None; showPasswordDialog := false;
     passwordInput := ""; passwordError := "" |}.

(** * Properties *)

Ltac Zify.zify_post_hook ::= Z.to_euclidean_division_equations.

Example btoa_Man : Base64.btoa [77; 97; 110] = Ok [84; 87; 70; 117].
Proof. reflexivity. Qed.

Example btoa_Ma : Base64.btoa [77; 97] = Ok [84; 87; 69; 61].
Proof. reflexivity. Qed.

Example atob_TQ : Base64.atob [84; 81; 61; 61] = Ok [77].
Proof. reflexivity. Qed.

Example encode_euro : UTF8.TextEncoder_encode [0x20AC] = [xe2; x82; xac].
Proof. reflexivity. Qed.

Example decode_euro : UTF8.TextDecoder_decode [xe2; x82; xac] = [0x20AC].
Proof. reflexivity. Qed.

Example encode_lone_surrogate : UTF8.TextEncoder_encode [0xD800] = [xef; xbf; xbd].
Proof. reflexivity. Qed.

Example decode_byte_order_mark : UTF8.TextDecoder_decode [xef; xbb; xbf; x61] = [0x61].
Proof. reflexivity. Qed.

Example decode_ill_formed : UTF8.TextDecoder_decode [xe2; x28; xa1] = [0xFFFD; 0x28; 0xFFFD].
Proof. reflexivity. Qed.

Example encode_pair : UTF8.TextEncoder_encode [0xD83D; 0xDE00] = [xf0; x9f; x98; x80].
Proof. reflexivity. Qed.

Example decode_overlong : UTF8.TextDecoder_decode [xc0; x80] = [0xFFFD; 0xFFFD].
Proof. reflexivity. Qed.

Example decode_surrogate : UTF8.TextDecoder_decode [xed; xa0; x80] = [0xFFFD; 0xFFFD; 0xFFFD].
Proof. reflexivity. Qed.

Example decode_truncated : UTF8.TextDecoder_decode [x61; xe2; x82] = [0x61; 0xFFFD].
Proof. reflexivity. Qed.

Example decode_too_large :
  UTF8.TextDecoder_decode [xf4; x90; x80; x80] = [0xFFFD; 0xFFFD; 0xFFFD; 0xFFFD].
Proof. reflexivity. Qed.

Example decode_encode_pair :
  UTF8.TextDecoder_decode (UTF8.TextEncoder_encode [0xD83D; 0xDE00]) = [0xD83D; 0xDE00].
Proof. reflexivity. Qed.

Lemma Ok_inj {A} (a b : A) : Ok a = Ok b -> a = b.
Proof. congruence. Qed.

(** ** Bytes *)

Lemma byte_to_Z_range (b : byte) : 0 <= byte_to_Z b < 256.
Proof.
  unfold byte_to_Z. pose proof (Byte.to_N_bounded b). lia.
Qed.

Lemma byte_of_to_Z (b : byte) : byte_of_Z (byte_to_Z b) = b.
Proof.
  unfold byte_of_Z. pose proof (byte_to_Z_range b) as Hr.
  rewrite Z.mod_small by lia. unfold byte_to_Z.
  rewrite N2Z.id, Byte.of_to_N. reflexivity.
Qed.

Lemma byte_to_of_Z (z : Z) : 0 <= z < 256 -> byte_to_Z (byte_of_Z z) = z.
Proof.
  intros Hz. unfold byte_of_Z, byte_to_Z. rewrite Z.mod_small by lia.
  destruct (Byte.of_N (Z.to_N z)) as [b|] eqn:Hb; simpl.
  - apply Byte.to_of_N in Hb. lia.
  - apply Byte.of_N_None_iff in Hb. lia.
Qed.

Lemma bytes_of_to_Z (bs : list byte) : byte_of_Z <$> (byte_to_Z <$> bs) = bs.
Proof.
  induction bs as [|b bs IH]; simpl; [reflexivity|].
  rewrite byte_of_to_Z. f_equal. exact IH.
Qed.

Lemma bytes_to_of_Z (zs : list Z) :
  Forall octet zs -> byte_to_Z <$> (byte_of_Z <$> zs) = zs.
Proof.
  induction 1 as [|z zs Hz _ IH]; simpl; [reflexivity|].
  rewrite byte_to_of_Z by exact Hz. f_equal. exact IH.
Qed.

Lemma bytes_to_Z_range (bs : list byte) :
  Forall octet (byte_to_Z <$> bs).
Proof.
  induction bs; simpl; constructor; [apply byte_to_Z_range | assumption].
Qed.


(** ** Base64 *)

(** Lists three elements at a time. *)
Lemma list_ind3 {A} (P : list A -> Prop) :
  P [] -> (forall a, P [a]) -> (forall a b, P [a; b]) ->
  (forall a b c l, P l -> P (a :: b :: c :: l)) ->
  forall l, P l.
Proof.
  intros H0 H1 H2 H3.
  assert (Hall : forall l, P l /\ (forall a, P (a :: l)) /\ (forall a b, P (a :: b :: l))).
  { induction l as [|x l (IH0 & IH1 & IH2)]; repeat split; auto. }
  intros l. apply Hall.
Qed.

Lemma unalphabet_alphabet (i : Z) :
  0 <= i < 64 -> Base64.unalphabet (Base64.alphabet i) = Some i.
Proof.
  intros Hi. unfold Base64.alphabet, Base64.unalphabet.
  repeat match goal with
         | |- context [?a <? ?b] => destruct (Z.ltb_spec a b)
         | |- context [?a <=? ?b] => destruct (Z.leb_spec a b)
         | |- context [?a =? ?b] => destruct (Z.eqb_spec a b)
         end; simpl; try lia; f_equal; lia.
Qed.

Lemma alphabet_range (i : Z) :
  0 <= i < 64 -> 43 <= Base64.alphabet i <= 122 /\ Base64.alphabet i <> 61.
Proof.
  intros Hi. unfold Base64.alphabet.
  repeat match goal with
         | |- context [?a <? ?b] => destruct (Z.ltb_spec a b)
         | |- context [?a =? ?b] => destruct (Z.eqb_spec a b)
         end; lia.
Qed.

Lemma sextets_range (bs : list Z) : Forall octet bs -> Forall sextet (Base64.sextets bs).
Proof.
  unfold octet, sextet.
  induction bs as [|a|a b|a b c l IH] using list_ind3; intros H.
  - constructor.
  - inversion_clear H. simpl. repeat constructor; lia.
  - inversion_clear H as [|? ? Ha H']. inversion_clear H' as [|? ? Hb _].
    simpl. repeat constructor; lia.
  - inversion_clear H as [|? ? Ha H']. inversion_clear H' as [|? ? Hb H''].
    inversion_clear H'' as [|? ? Hc Hl].
    simpl. repeat (constructor; [lia|]). auto.
Qed.

Lemma unsextets_sextets (bs : list Z) :
  Forall octet bs -> Base64.unsextets (Base64.sextets bs) = Some bs.
Proof.
  unfold octet.
  induction bs as [|a|a b|a b c l IH] using list_ind3; intros H.
  - reflexivity.
  - inversion_clear H. simpl. do 2 f_equal. lia.
  - inversion_clear H as [|? ? Ha H']. inversion_clear H' as [|? ? Hb _].
    simpl. f_equal. f_equal; [lia|]. f_equal. lia.
  - inversion_clear H as [|? ? Ha H']. inversion_clear H' as [|? ? Hb H''].
    inversion_clear H'' as [|? ? Hc Hl].
    simpl. rewrite (IH Hl). f_equal.
    f_equal; [lia|]. f_equal; [lia|]. f_equal. lia.
Qed.

Lemma sextets_padding_length (bs : list Z) :
  ((length (Base64.sextets bs) + length (Base64.padding (length bs))) mod 4 = 0)%nat.
Proof.
  induction bs as [|a|a b|a b c l IH] using list_ind3; try reflexivity.
  change (length (a :: b :: c :: l)) with (3 + length l)%nat.
  replace (Base64.padding (3 + length l)) with (Base64.padding (length l)).
  - simpl length at 1.
    replace (S (S (S (S (length (Base64.sextets l))))) + length (Base64.padding (length l)))%nat
      with (length (Base64.sextets l) + length (Base64.padding (length l)) + 1 * 4)%nat by lia.
    rewrite Nat.Div0.mod_add. exact IH.
  - unfold Base64.padding.
    replace (3 + length l)%nat with (length l + 1 * 3)%nat by lia.
    rewrite Nat.Div0.mod_add. reflexivity.
Qed.

Lemma drop_trailing_equals_snoc (x : list Z) :
  Base64.drop_trailing_equals (x ++ [61]) = x.
Proof.
  unfold Base64.drop_trailing_equals. rewrite rev_app_distr. simpl.
  apply rev_involutive.
Qed.

Lemma drop_trailing_equals_id (x : list Z) :
  Forall (fun c => c <> 61) x -> Base64.drop_trailing_equals x = x.
Proof.
  intros H. unfold Base64.drop_trailing_equals.
  destruct (rev x) as [|c r] eqn:Hr; [reflexivity|].
  destruct (Z.eqb_spec c 61) as [->|]; [|reflexivity].
  exfalso. apply (f_equal (@rev Z)) in Hr. rewrite rev_involutive in Hr.
  subst x. simpl in H. apply Forall_app in H as [_ H].
  inversion_clear H. congruence.
Qed.

Lemma strip_padding_encoded (x : list Z) (n : nat) :
  Forall (fun c => c <> 61) x ->
  ((length x + length (Base64.padding n)) mod 4 = 0)%nat ->
  Base64.strip_padding (x ++ Base64.padding n) = x.
Proof.
  intros Hx Hlen. unfold Base64.strip_padding.
  rewrite length_app, Hlen. simpl.
  unfold Base64.padding. destruct (n mod 3)%nat as [|[|[|k]]].
  - rewrite app_nil_r, (drop_trailing_equals_id x Hx). apply drop_trailing_equals_id, Hx.
  - change (x ++ [61; 61]) with (x ++ [61] ++ [61]). rewrite app_assoc.
    rewrite !drop_trailing_equals_snoc. reflexivity.
  - rewrite drop_trailing_equals_snoc. apply drop_trailing_equals_id, Hx.
  - rewrite app_nil_r, (drop_trailing_equals_id x Hx). apply drop_trailing_equals_id, Hx.
Qed.

Lemma filter_Forall_id {A} (P : A -> Prop) `{forall x, Decision (P x)} (l : list A) :
  Forall P l -> filter P l = l.
Proof.
  induction 1 as [|x l Hx _ IH]; [reflexivity|].
  rewrite filter_cons_True by exact Hx. f_equal. exact IH.
Qed.

Lemma encoded_no_whitespace (x : list Z) (n : nat) :
  Forall sextet x ->
  filter (fun c => Base64.is_ascii_whitespace c = false)
         ((Base64.alphabet <$> x) ++ Base64.padding n)
  = (Base64.alphabet <$> x) ++ Base64.padding n.
Proof.
  intros Hx. apply filter_Forall_id, Forall_app. split.
  - apply Forall_fmap. eapply Forall_impl; [exact Hx|]. intros i Hi. simpl.
    destruct (alphabet_range i Hi) as [Hr _]. unfold Base64.is_ascii_whitespace.
    repeat match goal with
           | |- context [?a =? ?b] => destruct (Z.eqb_spec a b)
           end; simpl; try reflexivity; lia.
  - unfold Base64.padding. destruct (n mod 3)%nat as [|[|[|k]]]; repeat constructor.
Qed.

(** [atob] reads back what [btoa] wrote. *)
Lemma atob_btoa (bs : list Z) :
  Forall octet bs ->
  exists s, Base64.btoa bs = Ok s /\ Base64.atob s = Ok bs.
Proof.
  intros Hbs. unfold Base64.btoa.
  assert (Hbin : forallb Base64.is_binary bs = true).
  { apply forallb_forall. intros b Hb. rewrite Forall_forall in Hbs.
    apply list_elem_of_In, Hbs in Hb. unfold octet in Hb. unfold Base64.is_binary.
    apply andb_true_intro. split; apply Z.leb_le; lia. }
  rewrite Hbin. eexists. split; [reflexivity|].
  pose proof (sextets_range bs Hbs) as Hsx.
  unfold Base64.atob. rewrite (encoded_no_whitespace _ _ Hsx).
  rewrite strip_padding_encoded.
  - rewrite mapM_fmap_Forall_Some.
    + simpl. rewrite (unsextets_sextets bs Hbs). reflexivity.
    + eapply Forall_impl; [exact Hsx|]. intros i Hi. apply unalphabet_alphabet, Hi.
  - apply Forall_fmap. eapply Forall_impl; [exact Hsx|]. intros i Hi. simpl.
    apply alphabet_range, Hi.
  - rewrite length_fmap. apply sextets_padding_length.
Qed.


(** ** UTF-8 *)

Lemma land_shiftl_low (x y : Z) : 0 <= y < 64 -> Z.land (Z.shiftl x 6) y = 0.
Proof.
  intros Hy. apply Z.bits_inj'. intros n Hn.
  rewrite Z.land_spec, Z.bits_0.
  destruct (Z.lt_ge_cases n 6) as [Hlt|Hge].
  - rewrite Z.shiftl_spec_low by exact Hlt. reflexivity.
  - rewrite andb_false_iff. right.
    destruct (Z.eq_dec y 0) as [->|Hy0]; [apply Z.bits_0|].
    apply Z.bits_above_log2; [lia|].
    assert (Z.log2 y < 6) by (apply Z.log2_lt_pow2; simpl; lia). lia.
Qed.

Lemma lor_shiftl_low (x y : Z) : 0 <= y < 64 -> Z.lor (Z.shiftl x 6) y = x * 64 + y.
Proof.
  intros Hy. pose proof (land_shiftl_low x y Hy) as H0.
  rewrite <- (Z.lxor_lor _ _ H0), <- (Z.add_nocarry_lxor _ _ H0).
  rewrite Z.shiftl_mul_pow2 by lia. reflexivity.
Qed.

Lemma lor_0x80 (y : Z) : 0 <= y < 64 -> Z.lor 0x80 y = 128 + y.
Proof.
  intros Hy. change (Z.lor 0x80 y) with (Z.lor (Z.shiftl 2 6) y).
  rewrite (lor_shiftl_low 2 y Hy). lia.
Qed.

Lemma land_0x3F (x : Z) : Z.land x 0x3F = x mod 64.
Proof. change 0x3F with (Z.ones 6). apply Z.land_ones. lia. Qed.

Lemma land_0x1F (x : Z) : Z.land x 0x1F = x mod 32.
Proof. change 0x1F with (Z.ones 5). apply Z.land_ones. lia. Qed.

Lemma land_0xF (x : Z) : Z.land x 0xF = x mod 16.
Proof. change 0xF with (Z.ones 4). apply Z.land_ones. lia. Qed.

Lemma land_0x7 (x : Z) : Z.land x 0x7 = x mod 8.
Proof. change 0x7 with (Z.ones 3). apply Z.land_ones. lia. Qed.

(** Comparisons decided by linear arithmetic. *)
Ltac decide_tests :=
  repeat match goal with
         | |- context [?a <=? ?b] =>
             first [ replace (a <=? b) with true by (symmetry; apply Z.leb_le; lia)
                   | replace (a <=? b) with false by (symmetry; apply Z.leb_gt; lia) ]
         | |- context [?a =? ?b] =>
             first [ replace (a =? b) with true by (symmetry; apply Z.eqb_eq; lia)
                   | replace (a =? b) with false by (symmetry; apply Z.eqb_neq; lia) ]
         end; simpl.

Lemma continuation_byte (cp k : Z) :
  0 <= k -> Z.lor 0x80 (Z.land (Z.shiftr cp k) 0x3F) = 128 + (cp / 2 ^ k) mod 64.
Proof.
  intros Hk. rewrite land_0x3F, Z.shiftr_div_pow2 by exact Hk.
  apply lor_0x80. lia.
Qed.

Lemma encode_scalar_1 (cp : Z) : 0 <= cp <= 0x7F -> UTF8.encode_scalar cp = [cp].
Proof. intros H. unfold UTF8.encode_scalar. decide_tests. reflexivity. Qed.

Lemma encode_scalar_2 (cp : Z) :
  0x80 <= cp <= 0x7FF -> UTF8.encode_scalar cp = [192 + cp / 64; 128 + cp mod 64].
Proof.
  intros H. unfold UTF8.encode_scalar. decide_tests.
  rewrite !continuation_byte, Z.shiftr_div_pow2 by lia. simpl.
  rewrite Z.div_1_r. f_equal. lia.
Qed.

Lemma encode_scalar_3 (cp : Z) :
  0x800 <= cp <= 0xFFFF ->
  UTF8.encode_scalar cp = [224 + cp / 4096; 128 + (cp / 64) mod 64; 128 + cp mod 64].
Proof.
  intros H. unfold UTF8.encode_scalar. decide_tests.
  rewrite !continuation_byte, Z.shiftr_div_pow2 by lia. simpl.
  rewrite Z.div_1_r. f_equal. lia.
Qed.

Lemma encode_scalar_4 (cp : Z) :
  0x10000 <= cp ->
  UTF8.encode_scalar cp
  = [240 + cp / 262144; 128 + (cp / 4096) mod 64; 128 + (cp / 64) mod 64; 128 + cp mod 64].
Proof.
  intros H. unfold UTF8.encode_scalar. decide_tests.
  rewrite !continuation_byte, Z.shiftr_div_pow2 by lia. simpl.
  rewrite Z.div_1_r. f_equal. lia.
Qed.

Lemma lead_ascii (b : Z) : 0 <= b <= 0x7F -> UTF8.lead b = ([b], UTF8.initial).
Proof. intros H. unfold UTF8.lead. decide_tests. reflexivity. Qed.

Lemma lead_2 (b : Z) :
  0xC2 <= b <= 0xDF -> UTF8.lead b = ([], UTF8.Decoder (b - 192) 0 1 0x80 0xBF).
Proof.
  intros H. unfold UTF8.lead. decide_tests. rewrite land_0x1F.
  do 2 f_equal. lia.
Qed.

Lemma lead_3 (b : Z) :
  0xE0 <= b <= 0xEF ->
  UTF8.lead b = ([], UTF8.Decoder (b - 224) 0 2
                       (if b =? 0xE0 then 0xA0 else 0x80) (if b =? 0xED then 0x9F else 0xBF)).
Proof.
  intros H. unfold UTF8.lead.
  replace (0 <=? b) with true by (symmetry; apply Z.leb_le; lia).
  replace (b <=? 0x7F) with false by (symmetry; apply Z.leb_gt; lia).
  replace (0xC2 <=? b) with true by (symmetry; apply Z.leb_le; lia).
  replace (b <=? 0xDF) with false by (symmetry; apply Z.leb_gt; lia).
  replace (0xE0 <=? b) with true by (symmetry; apply Z.leb_le; lia).
  replace (b <=? 0xEF) with true by (symmetry; apply Z.leb_le; lia).
  simpl. rewrite land_0xF. do 2 f_equal. lia.
Qed.

Lemma lead_4 (b : Z) :
  0xF0 <= b <= 0xF4 ->
  UTF8.lead b = ([], UTF8.Decoder (b - 240) 0 3
                       (if b =? 0xF0 then 0x90 else 0x80) (if b =? 0xF4 then 0x8F else 0xBF)).
Proof.
  intros H. unfold UTF8.lead.
  replace (0 <=? b) with true by (symmetry; apply Z.leb_le; lia).
  replace (b <=? 0x7F) with false by (symmetry; apply Z.leb_gt; lia).
  replace (0xC2 <=? b) with true by (symmetry; apply Z.leb_le; lia).
  replace (b <=? 0xDF) with false by (symmetry; apply Z.leb_gt; lia).
  replace (0xE0 <=? b) with true by (symmetry; apply Z.leb_le; lia).
  replace (b <=? 0xEF) with false by (symmetry; apply Z.leb_gt; lia).
  replace (0xF0 <=? b) with true by (symmetry; apply Z.leb_le; lia).
  replace (b <=? 0xF4) with true by (symmetry; apply Z.leb_le; lia).
  simpl. rewrite land_0x7. do 2 f_equal. lia.
Qed.

(** A continuation byte within the boundaries. *)
Lemma handler_continuation (cp seen needed lo hi b : Z) :
  needed <> 0 -> lo <= b <= hi -> 128 <= b <= 191 ->
  UTF8.handler (UTF8.Decoder cp seen needed lo hi) b
  = if seen + 1 =? needed then ([cp * 64 + (b - 128)], UTF8.initial)
    else ([], UTF8.Decoder (cp * 64 + (b - 128)) (seen + 1) needed 0x80 0xBF).
Proof.
  intros Hn Hb Hc. unfold UTF8.handler. simpl.
  replace (needed =? 0) with false by (symmetry; apply Z.eqb_neq; lia).
  replace (lo <=? b) with true by (symmetry; apply Z.leb_le; lia).
  replace (b <=? hi) with true by (symmetry; apply Z.leb_le; lia).
  simpl. rewrite land_0x3F, lor_shiftl_low by lia.
  replace (b mod 64) with (b - 128) by lia. reflexivity.
Qed.

Lemma steps_encode_scalar (cp : Z) :
  UTF8.is_scalar cp = true ->
  UTF8.steps UTF8.initial (UTF8.encode_scalar cp) = ([cp], UTF8.initial).
Proof.
  unfold UTF8.is_scalar. rewrite !andb_true_iff, negb_true_iff, andb_false_iff.
  rewrite !Z.leb_le, !Z.leb_gt. intros [[H0 Hmax] Hsur].
  destruct (Z.le_gt_cases cp 0x7F) as [H1|H1];
    [|destruct (Z.le_gt_cases cp 0x7FF) as [H2|H2];
      [|destruct (Z.le_gt_cases cp 0xFFFF) as [H3|H3]]].
  - rewrite encode_scalar_1 by lia. simpl. unfold UTF8.handler. simpl.
    rewrite lead_ascii by lia. reflexivity.
  - rewrite encode_scalar_2 by lia. simpl. unfold UTF8.handler at 1. simpl.
    rewrite lead_2 by lia. rewrite handler_continuation by lia. simpl.
    do 2 f_equal. lia.
  - rewrite encode_scalar_3 by lia. simpl. unfold UTF8.handler at 1. simpl.
    rewrite lead_3 by lia.
    rewrite handler_continuation;
      [| lia
       | destruct (Z.eqb_spec (224 + cp / 4096) 0xE0);
         destruct (Z.eqb_spec (224 + cp / 4096) 0xED); lia
       | lia ].
    simpl. rewrite handler_continuation by lia. simpl.
    do 2 f_equal. lia.
  - rewrite encode_scalar_4 by lia. simpl. unfold UTF8.handler at 1. simpl.
    rewrite lead_4 by lia.
    rewrite handler_continuation;
      [| lia
       | destruct (Z.eqb_spec (240 + cp / 262144) 0xF0);
         destruct (Z.eqb_spec (240 + cp / 262144) 0xF4); lia
       | lia ].
    simpl. rewrite handler_continuation by lia. simpl.
    rewrite handler_continuation by lia. simpl.
    do 2 f_equal. lia.
Qed.

Lemma encode_scalar_octets (cp : Z) :
  UTF8.is_scalar cp = true -> Forall octet (UTF8.encode_scalar cp).
Proof.
  unfold UTF8.is_scalar, octet. rewrite !andb_true_iff, negb_true_iff, andb_false_iff.
  rewrite !Z.leb_le, !Z.leb_gt. intros [[H0 Hmax] Hsur].
  destruct (Z.le_gt_cases cp 0x7F) as [H1|H1];
    [|destruct (Z.le_gt_cases cp 0x7FF) as [H2|H2];
      [|destruct (Z.le_gt_cases cp 0xFFFF) as [H3|H3]]].
  - rewrite encode_scalar_1 by lia. repeat constructor; lia.
  - rewrite encode_scalar_2 by lia. repeat constructor; lia.
  - rewrite encode_scalar_3 by lia. repeat constructor; lia.
  - rewrite encode_scalar_4 by lia. repeat constructor; lia.
Qed.

Lemma run_steps (d : UTF8.decoder) (bs rest : list Z) :
  UTF8.run d (bs ++ rest)
  = (UTF8.steps d bs).1 ++ UTF8.run (UTF8.steps d bs).2 rest.
Proof.
  revert d. induction bs as [|b bs IH]; intros d; simpl; [reflexivity|].
  destruct (UTF8.handler d b) as [out d']. rewrite IH.
  destruct (UTF8.steps d' bs) as [out' d'']. simpl. apply app_assoc.
Qed.

(** The decoder reads the encoding of scalar values back. *)
Lemma run_encode (cps : list Z) :
  Forall (fun cp => UTF8.is_scalar cp = true) cps ->
  UTF8.run UTF8.initial (cps ≫= UTF8.encode_scalar) = cps.
Proof.
  induction 1 as [|cp cps Hcp _ IH]; [reflexivity|].
  rewrite bind_cons, run_steps, (steps_encode_scalar cp Hcp). simpl.
  f_equal. exact IH.
Qed.

Lemma encode_octets (cps : list Z) :
  Forall (fun cp => UTF8.is_scalar cp = true) cps ->
  Forall octet (cps ≫= UTF8.encode_scalar).
Proof.
  induction 1 as [|cp cps Hcp _ IH]; [constructor|].
  rewrite bind_cons. apply Forall_app. split; [apply encode_scalar_octets, Hcp | exact IH].
Qed.

(** Two code units at a time, as [scalar_values] reads them. *)
Lemma list_ind2 {A} (P : list A -> Prop) :
  P [] -> (forall a, P [a]) -> (forall a b l, P l -> P (b :: l) -> P (a :: b :: l)) ->
  forall l, P l.
Proof.
  intros H0 H1 H2.
  assert (Hall : forall l, P l /\ (forall a, P (a :: l))).
  { induction l as [|x l (IH0 & IH1)]; split; auto. }
  intros l. apply Hall.
Qed.

Ltac surrogate_tests :=
  unfold UTF8.is_lead_surrogate, UTF8.is_trail_surrogate, UTF8.is_scalar in *;
  repeat match goal with
         | |- context [?a <=? ?b] => destruct (Z.leb_spec a b)
         end; simpl; try reflexivity; try lia.

Lemma scalar_values_cons (a : Z) (rest : list Z) :
  UTF8.scalar_values (a :: rest)
  = if UTF8.is_lead_surrogate a then
      match rest with
      | d :: rest' =>
          if UTF8.is_trail_surrogate d
          then 0x10000 + (a - 0xD800) * 0x400 + (d - 0xDC00) :: UTF8.scalar_values rest'
          else 0xFFFD :: UTF8.scalar_values rest
      | [] => [0xFFFD]
      end
    else if UTF8.is_trail_surrogate a then 0xFFFD :: UTF8.scalar_values rest
    else a :: UTF8.scalar_values rest.
Proof. reflexivity. Qed.

Lemma well_formed_cons (a : Z) (rest : list Z) :
  UTF8.well_formed (a :: rest)
  = if UTF8.is_lead_surrogate a then
      match rest with
      | d :: rest' => UTF8.is_trail_surrogate d && UTF8.well_formed rest'
      | [] => false
      end
    else negb (UTF8.is_trail_surrogate a) && (0 <=? a) && (a <=? 0xFFFF)
         && UTF8.well_formed rest.
Proof. reflexivity. Qed.

Lemma scalar_values_scalar (s : list Z) :
  js_string s -> Forall (fun cp => UTF8.is_scalar cp = true) (UTF8.scalar_values s).
Proof.
  unfold js_string.
  induction s as [|a|a b l IH0 IH1] using list_ind2; intros H.
  - constructor.
  - inversion_clear H as [|? ? Ha _]. simpl.
    destruct (UTF8.is_lead_surrogate a) eqn:E1; [repeat constructor|].
    destruct (UTF8.is_trail_surrogate a) eqn:E2; [repeat constructor|].
    repeat constructor. revert E1 E2. surrogate_tests.
  - inversion_clear H as [|? ? Ha H']. pose proof H' as Hbl.
    inversion_clear H' as [|? ? Hb Hl].
    rewrite scalar_values_cons. cbv beta iota.
    destruct (UTF8.is_lead_surrogate a) eqn:E1.
    + destruct (UTF8.is_trail_surrogate b) eqn:E2.
      * constructor; [|apply IH0, Hl]. revert E1 E2. surrogate_tests.
      * constructor; [reflexivity|]. apply IH1, Hbl.
    + destruct (UTF8.is_trail_surrogate a) eqn:E2.
      * constructor; [reflexivity|]. apply IH1, Hbl.
      * constructor; [|apply IH1, Hbl]. revert E1 E2. surrogate_tests.
Qed.

(** What the two codecs make of any string. *)
Lemma decode_encode (s : list Z) :
  js_string s ->
  UTF8.TextDecoder_decode (UTF8.TextEncoder_encode s)
  = UTF8.strip_BOM (UTF8.scalar_values s) ≫= UTF8.code_units.
Proof.
  intros Hs. unfold UTF8.TextDecoder_decode, UTF8.TextEncoder_encode.
  pose proof (scalar_values_scalar s Hs) as Hsc.
  rewrite bytes_to_of_Z by (apply encode_octets, Hsc).
  rewrite run_encode by exact Hsc. reflexivity.
Qed.

Lemma well_formed_js_string (s : list Z) : UTF8.well_formed s = true -> js_string s.
Proof.
  unfold js_string.
  induction s as [|a|a b l IH0 IH1] using list_ind2;
    [|rewrite well_formed_cons; cbv beta iota..].
  - constructor.
  - destruct (UTF8.is_lead_surrogate a) eqn:E1; [discriminate|].
    rewrite !andb_true_iff, !Z.leb_le. intros [[[_ ?] ?] _].
    repeat constructor; lia.
  - destruct (UTF8.is_lead_surrogate a) eqn:E1.
    + rewrite andb_true_iff. intros [E2 Hl].
      constructor; [|constructor; [|apply IH0, Hl]];
        revert E1 E2; unfold UTF8.is_lead_surrogate, UTF8.is_trail_surrogate;
        rewrite !andb_true_iff, !Z.leb_le; lia.
    + rewrite !andb_true_iff, !Z.leb_le. intros [[[_ ?] ?] Hl].
      constructor; [lia|]. apply IH1, Hl.
Qed.

Lemma code_units_scalar_values (s : list Z) :
  UTF8.well_formed s = true -> UTF8.scalar_values s ≫= UTF8.code_units = s.
Proof.
  induction s as [|a|a b l IH0 IH1] using list_ind2;
    [|rewrite well_formed_cons, scalar_values_cons; cbv beta iota..].
  - reflexivity.
  - destruct (UTF8.is_lead_surrogate a) eqn:E1; [discriminate|].
    destruct (UTF8.is_trail_surrogate a) eqn:E2; [discriminate|].
    rewrite !andb_true_iff, !Z.leb_le. intros [[[_ ?] ?] _].
    rewrite bind_cons. unfold UTF8.code_units. decide_tests. reflexivity.
  - destruct (UTF8.is_lead_surrogate a) eqn:E1.
    + rewrite andb_true_iff. intros [E2 Hl]. rewrite E2, bind_cons, (IH0 Hl).
      revert E1 E2. unfold UTF8.is_lead_surrogate, UTF8.is_trail_surrogate.
      rewrite !andb_true_iff, !Z.leb_le. intros E1 E2.
      unfold UTF8.code_units. decide_tests. f_equal; [lia|]. f_equal. lia.
    + destruct (UTF8.is_trail_surrogate a) eqn:E2; [discriminate|].
      rewrite !andb_true_iff, !Z.leb_le. intros [[[_ ?] ?] Hl].
      rewrite bind_cons, (IH1 Hl). unfold UTF8.code_units. decide_tests. reflexivity.
Qed.

Lemma strip_BOM_id (cps : list Z) : head cps <> Some 0xFEFF -> UTF8.strip_BOM cps = cps.
Proof.
  destruct cps as [|c cps]; [reflexivity|]. simpl. intros H.
  destruct (Z.eq_dec c 0xFEFF) as [->|Hne]; [congruence|].
  unfold UTF8.strip_BOM.
  repeat match goal with
         | |- context [match ?x with _ => _ end] => is_var x; destruct x
         end; try reflexivity; congruence.
Qed.

Lemma head_scalar_values (s : list Z) :
  UTF8.well_formed s = true -> head s <> Some 0xFEFF ->
  head (UTF8.scalar_values s) <> Some 0xFEFF.
Proof.
  destruct s as [|a [|b l]];
    [|rewrite well_formed_cons, scalar_values_cons; cbv beta iota..];
    [simpl; intros _ _; discriminate| |].
  - destruct (UTF8.is_lead_surrogate a); [discriminate|].
    destruct (UTF8.is_trail_surrogate a); [discriminate|]. auto.
  - destruct (UTF8.is_lead_surrogate a) eqn:E1.
    + rewrite andb_true_iff. intros [E2 _] _. rewrite E2. simpl.
      revert E1 E2. unfold UTF8.is_lead_surrogate, UTF8.is_trail_surrogate.
      rewrite !andb_true_iff, !Z.leb_le. intros E1 E2 [=]. lia.
    + destruct (UTF8.is_trail_surrogate a); [discriminate|]. auto.
Qed.

(** A well-formed string that does not begin with U+FEFF is decoded as it
    was encoded. *)
Lemma TextDecoder_TextEncoder (s : list Z) :
  UTF8.well_formed s = true -> head s <> Some 0xFEFF ->
  UTF8.TextDecoder_decode (UTF8.TextEncoder_encode s) = s.
Proof.
  intros Hwf Hbom.
  rewrite decode_encode by (apply well_formed_js_string, Hwf).
  rewrite strip_BOM_id by (apply head_scalar_values; assumption).
  apply code_units_scalar_values, Hwf.
Qed.

(** ** The encryption manager *)

Section EncryptionManagerFacts.
Context `{WebCrypto}.

Lemma next_random_bytes_length (n : nat) (c : Crypto) :
  length (next_random_bytes n c) = n.
Proof. unfold next_random_bytes. rewrite length_fmap. apply length_seq. Qed.

Lemma spread_fits {A B : Type} (f : list A -> B) (array : list A) :
  Z.of_nat (length array) <= max_arguments -> spread f array = Ok (f array).
Proof.
  intros Hfit. unfold spread.
  destruct (Z.leb_spec (Z.of_nat (length array)) max_arguments); [reflexivity | lia].
Qed.

Lemma spread_too_long {A B : Type} (f : list A -> B) (array : list A) :
  max_arguments < Z.of_nat (length array) -> spread f array = Throw RangeError.
Proof.
  intros Hlong. unfold spread.
  destruct (Z.leb_spec (Z.of_nat (length array)) max_arguments); [lia | reflexivity].
Qed.

(** The nonce and the ciphertext together: twelve bytes more than the
    ciphertext. *)
Lemma combined_length (c : Crypto) (encrypted : list byte) :
  Z.of_nat (length (next_random_bytes 12 c ++ encrypted))
  = 12 + Z.of_nat (length encrypted).
Proof. rewrite length_app, next_random_bytes_length. lia. Qed.

(** [encryptMessage] with a key for the room: the twelve bytes drawn are
    the nonce of the cipher and the head of what is spread into
    [String.fromCharCode]. *)
Lemma encryptMessage_run (c : Crypto) (roomId : string) (key : CryptoKey)
    (message : list Z) :
  roomKeys (encryptionManager c) !! roomId = Some key ->
  let iv := next_random_bytes 12 c in
  encryptMessage message roomId c
  = (match spread String_fromCharCode
             (iv ++ AES_GCM_encrypt key iv (UTF8.TextEncoder_encode message)) with
     | Ok binary => Base64.btoa binary
     | Throw e => Throw e
     end,
     (getRandomValues 12 c).2).
Proof.
  intros Hkey iv. unfold encryptMessage, bind, get, lift, getRandomValues.
  cbv beta iota zeta. rewrite Hkey. cbv beta iota. fold iv.
  destruct (spread String_fromCharCode _); reflexivity.
Qed.

(** With a key for the room and a ciphertext that, with the nonce, the
    engine takes as arguments, [encryptMessage] returns: it has drawn
    twelve bytes, and the envelope holds them before the ciphertext. *)
Lemma encryptMessage_envelope (c : Crypto) (roomId : string) (key : CryptoKey)
    (message : list Z) :
  roomKeys (encryptionManager c) !! roomId = Some key ->
  let iv := next_random_bytes 12 c in
  12 + Z.of_nat (length (AES_GCM_encrypt key iv (UTF8.TextEncoder_encode message)))
  <= max_arguments ->
  exists envelope,
    encryptMessage message roomId c = (Ok envelope, (getRandomValues 12 c).2)
    /\ Base64.atob envelope
       = Ok (String_fromCharCode
               (iv ++ AES_GCM_encrypt key iv (UTF8.TextEncoder_encode message))).
Proof.
  intros Hkey iv Hfit. rewrite (encryptMessage_run c roomId key message Hkey).
  cbv zeta. fold iv. rewrite spread_fits by (unfold iv; rewrite combined_length; exact Hfit).
  destruct (atob_btoa (String_fromCharCode
              (iv ++ AES_GCM_encrypt key iv (UTF8.TextEncoder_encode message))))
    as (envelope & Hbtoa & Hatob); [apply bytes_to_Z_range|].
  exists envelope. rewrite Hbtoa. split; [reflexivity | exact Hatob].
Qed.

(** With more, it throws the [RangeError] of the spread call, after the
    nonce was drawn. *)
Lemma encryptMessage_too_long (c : Crypto) (roomId : string) (key : CryptoKey)
    (message : list Z) :
  roomKeys (encryptionManager c) !! roomId = Some key ->
  max_arguments
  < 12 + Z.of_nat (length (AES_GCM_encrypt key (next_random_bytes 12 c)
                             (UTF8.TextEncoder_encode message))) ->
  encryptMessage message roomId c = (Throw RangeError, (getRandomValues 12 c).2).
Proof.
  intros Hkey Hlong. rewrite (encryptMessage_run c roomId key message Hkey).
  cbv zeta. rewrite spread_too_long by (rewrite combined_length; exact Hlong).
  reflexivity.
Qed.

(** An envelope that [encryptMessage] returned: the engine took the
    bytes, and the envelope holds the nonce drawn before the ciphertext
    made with that nonce. *)
Lemma encryptMessage_returned (c : Crypto) (roomId : string) (key : CryptoKey)
    (message envelope : list Z) :
  roomKeys (encryptionManager c) !! roomId = Some key ->
  (encryptMessage message roomId c).1 = Ok envelope ->
  let iv := next_random_bytes 12 c in
  12 + Z.of_nat (length (AES_GCM_encrypt key iv (UTF8.TextEncoder_encode message)))
  <= max_arguments
  /\ Base64.atob envelope
     = Ok (String_fromCharCode
             (iv ++ AES_GCM_encrypt key iv (UTF8.TextEncoder_encode message))).
Proof.
  intros Hkey Hret iv.
  destruct (Z.le_gt_cases
              (12 + Z.of_nat (length (AES_GCM_encrypt key iv
                                        (UTF8.TextEncoder_encode message))))
              max_arguments) as [Hfit|Hlong].
  - split; [exact Hfit|].
    destruct (encryptMessage_envelope c roomId key message Hkey Hfit)
      as (envelope' & Hrun & Hatob).
    rewrite Hrun in Hret. cbn [fst] in Hret. apply Ok_inj in Hret. subst envelope'.
    exact Hatob.
  - rewrite (encryptMessage_too_long c roomId key message Hkey Hlong) in Hret.
    discriminate.
Qed.


(** What [decryptMessage] makes of an envelope that holds [iv] and
    [encrypted]. *)
Lemma decryptMessage_envelope (c : Crypto) (roomId : string) (key : CryptoKey)
    (envelope : list Z) (iv encrypted : list byte) :
  roomKeys (encryptionManager c) !! roomId = Some key ->
  length iv = 12%nat ->
  Base64.atob envelope = Ok (String_fromCharCode (iv ++ encrypted)) ->
  decryptMessage envelope roomId c
  = match AES_GCM_decrypt key iv encrypted with
    | Some decrypted => (Ok (UTF8.TextDecoder_decode decrypted), c)
    | None => (Throw OperationError, c)
    end.
Proof.
  intros Hkey Hlen Hatob. unfold decryptMessage, bind, get, lift, ret, throw.
  cbv beta iota zeta. rewrite Hkey, Hatob. cbv beta iota.
  unfold bytes_of_binary_string, String_fromCharCode. rewrite bytes_of_to_Z.
  rewrite take_app_length', drop_app_length' by (symmetry; exact Hlen).
  destruct (AES_GCM_decrypt key iv encrypted); reflexivity.
Qed.

End EncryptionManagerFacts.

Lemma small_crypto_correct : @aead_correct small_crypto.
Proof.
  intros key iv data. simpl. unfold small_decrypt, small_encrypt.
  assert (E : Byte.eqb key key = true) by (apply Byte.byte_dec_lb; reflexivity).
  rewrite E. reflexivity.
Qed.

Lemma small_crypto_authentic : @aead_authentic small_crypto.
Proof.
  intros key key' iv data Hne. simpl. unfold small_decrypt, small_encrypt.
  destruct (Byte.eqb key key') eqn:E; [|reflexivity].
  apply Byte.byte_dec_bl in E. contradiction.
Qed.

Section EncryptionManagerClaims.
Context `{WebCrypto}.

(** [generateKeyPair] keeps the pair it has: the guard that
    [generateRoomKey] lacks. *)
Lemma generateKeyPair_idempotent (c : Crypto) (kp : CryptoKeyPair) :
  keyPair (encryptionManager c) = Some kp -> generateKeyPair c = (Ok kp, c).
Proof.
  intros Hkp. unfold generateKeyPair, bind, get. cbv beta iota. rewrite Hkp. reflexivity.
Qed.

(** [generateRoomKey] asks for a new key whatever the map holds, and
    stores it over the key of the room. *)
Lemma generateRoomKey_stores_new_key (c : Crypto) (roomId : string) (key : CryptoKey) :
  generated_AES_key (keys_generated c) = Ok key ->
  exists c',
    generateRoomKey roomId c = (Ok key, c')
    /\ roomKeys (encryptionManager c') !! roomId = Some key
    /\ keys_generated c' = S (keys_generated c).
Proof.
  intros Hgen. unfold generateRoomKey, bind, get, set_manager, subtle_generateKey_AES, ret.
  cbv beta iota. rewrite Hgen. cbv beta iota. eexists. split; [reflexivity|].
  simpl. split; [apply lookup_insert_eq | reflexivity].
Qed.

(** C5. Without a key for the room, [encryptMessage] and [decryptMessage]
    both throw "No room key found", for every plaintext and every
    envelope, and leave the state as it was: nothing is drawn, encoded or
    decoded. *)
Theorem no_room_key_errors (c : Crypto) (roomId : string) (plaintext envelope : list Z) :
  roomKeys (encryptionManager c) !! roomId = None ->
  encryptMessage plaintext roomId c = (Throw NoRoomKey, c)
  /\ decryptMessage envelope roomId c = (Throw NoRoomKey, c).
Proof.
  intros Hnone. unfold encryptMessage, decryptMessage, bind, get, throw.
  cbv beta iota. rewrite Hnone. split; reflexivity.
Qed.



(** C3. With an authentic cipher, what a tab encrypted under its key for
    the room is rejected by a tab that holds another key for that room:
    [decryptMessage] throws the error of the tag check and changes
    nothing, and [getDisplayContent], the room selected, catches it and
    gives the fixed text. *)
Theorem foreign_key_fails_closed (cA cB : Crypto) (roomId : string)
    (keyA keyB : CryptoKey) (plaintext : list Z) (message : ChatMessage.t) :
  aead_authentic ->
  roomKeys (encryptionManager cA) !! roomId = Some keyA ->
  roomKeys (encryptionManager cB) !! roomId = Some keyB ->
  keyA <> keyB ->
  truthy roomId = true ->
  ChatMessage.encrypted message = Some true ->
  (encryptMessage plaintext roomId cA).1 = Ok (ChatMessage.content message) ->
  decryptMessage (ChatMessage.content message) roomId cB = (Throw OperationError, cB)
  /\ getDisplayContent message (Some roomId) cB = (Ok decryption_failed, cB).
Proof.
  intros Hauth HkA HkB Hne Hroom Hencrypted Henc.
  destruct (encryptMessage_returned cA roomId keyA plaintext _ HkA Henc) as [_ Hatob].
  assert (Hdec : decryptMessage (ChatMessage.content message) roomId cB
                 = (Throw OperationError, cB)).
  { rewrite (decryptMessage_envelope _ roomId keyB _ _ _ HkB
               (next_random_bytes_length 12 cA) Hatob).
    rewrite (Hauth keyA keyB) by exact Hne. reflexivity. }
  split; [exact Hdec|].
  unfold getDisplayContent. rewrite Hencrypted, Hroom.
  unfold try_catch. rewrite Hdec. reflexivity.
Qed.

End EncryptionManagerClaims.

(** C5 on a tab that has no key. *)
Lemma no_room_key_errors_witness :
  @encryptMessage small_crypto (js "hello") "room-42" (@fresh_tab small_crypto)
  = (Throw NoRoomKey, @fresh_tab small_crypto)
  /\ @decryptMessage small_crypto (js "AAECAwQFBgcICQoLAWhp") "room-42" (@fresh_tab small_crypto)
     = (Throw NoRoomKey, @fresh_tab small_crypto).
Proof.
  apply (@no_room_key_errors small_crypto). reflexivity.
Defined.





(** So does an unpaired surrogate: it comes back as U+FFFD. *)
Lemma unpaired_surrogate_is_replaced :
  let plaintext := [0x68; 0xD800] in
  let r := @encryptMessage small_crypto plaintext "room-42"
             (@tab_with_key small_crypto "room-42" x2a 0) in
  is_ok r.1 = true
  /\ @decryptMessage small_crypto (returned [] r.1) "room-42" r.2 = (Ok [0x68; 0xFFFD], r.2).
Proof.
  vm_compute. split; reflexivity.
Qed.

(** C3 on a message of a tab with the key 1, read by a tab with the
    key 2. *)
Lemma foreign_key_fails_closed_witness :
  @decryptMessage small_crypto (ChatMessage.content small_message) "room-42"
    (@tab_with_key small_crypto "room-42" x02 0)
  = (Throw OperationError, @tab_with_key small_crypto "room-42" x02 0)
  /\ @getDisplayContent small_crypto small_message (Some "room-42")
       (@tab_with_key small_crypto "room-42" x02 0)
     = (Ok decryption_failed, @tab_with_key small_crypto "room-42" x02 0).
Proof.
  apply (@foreign_key_fails_closed small_crypto
           (@tab_with_key small_crypto "room-42" x01 0)
           (@tab_with_key small_crypto "room-42" x02 0)
           "room-42" x01 x02 (js "hello") small_message).
  - exact small_crypto_authentic.
  - reflexivity.
  - reflexivity.
  - discriminate.
  - reflexivity.
  - reflexivity.
  - vm_compute. reflexivity.
Defined.

(** C1 fails on the code. A tab joins "room-42" and encrypts "hello",
    which it can decrypt; it joins the room again: [generateRoomKey]
    returns another key, the map holds that one, and the envelope of
    before is rejected. *)
Theorem generateRoomKey_replaces_stored_key :
  let room := "room-42" in
  let r1 := @generateRoomKey small_crypto room (@fresh_tab small_crypto) in
  let r2 := @encryptMessage small_crypto (js "hello") room r1.2 in
  let envelope := returned [] r2.1 in
  let r3 := @generateRoomKey small_crypto room r2.2 in
  r1.1 = Ok x00
  /\ roomKeys (encryptionManager r1.2) !! room = Some x00
  /\ is_ok r2.1 = true
  /\ (@decryptMessage small_crypto envelope room r2.2).1 = Ok (js "hello")
  /\ r3.1 = Ok x01
  /\ roomKeys (encryptionManager r3.2) !! room = Some x01
  /\ (@decryptMessage small_crypto envelope room r3.2).1 = Throw OperationError.
Proof.
  vm_compute. repeat split; reflexivity.
Qed.

(** ** The replicated state store *)

Section RealTimeSyncClaims.
Context `{JSON}.

Ltac run_sync :=
  unfold saveData, loadData, onUpdate, close, try_catch, bind, get, ret, lift,
    localStorage_getItem, localStorage_setItem, postMessage, addEventListener,
    channel_close, set_channel, stored;
  cbv beta iota zeta.

(** [loadData] when the storage gives a text. *)
Lemma loadData_stored (w : Sync) (text : string) :
  denied (localStorage w) = false -> stored w = Some text ->
  loadData w
  = (Ok (if truthy text then returned None (JSON_parse text) else None), w).
Proof.
  intros Hd Hs. unfold stored in Hs. run_sync. rewrite Hd. cbv beta iota.
  rewrite Hs. cbv beta iota.
  destruct (truthy text); [|reflexivity].
  destruct (JSON_parse text); reflexivity.
Qed.

(** C8. [loadData] returns for every state of the storage, and leaves it
    as it is; it returns [null] when nothing is stored under the key, and
    when [JSON.parse] throws on what is stored. *)
Theorem loadData_total (w : Sync) :
  (exists v, loadData w = (Ok v, w))
  /\ (stored w = None -> loadData w = (Ok None, w))
  /\ (forall text e,
        stored w = Some text -> JSON_parse text = Throw e -> loadData w = (Ok None, w)).
Proof.
  unfold stored. split; [|split].
  - run_sync. destruct (denied (localStorage w)); [eexists; reflexivity|].
    cbv beta iota.
    destruct (items (localStorage w) !! storageKey (syncManager w)) as [text|];
      [|eexists; reflexivity].
    destruct (truthy text); [|eexists; reflexivity].
    destruct (JSON_parse text); eexists; reflexivity.
  - intros Hs. run_sync. destruct (denied (localStorage w)); [reflexivity|].
    cbv beta iota. rewrite Hs. reflexivity.
  - intros text e Hs Hp. run_sync. destruct (denied (localStorage w)); [reflexivity|].
    cbv beta iota. rewrite Hs. cbv beta iota.
    destruct (truthy text); [|reflexivity]. rewrite Hp. reflexivity.
Qed.

(** What [saveData] leaves, by the outcome of the write. *)
Lemma saveData_run (w : Sync) (data : AppData.t) :
  let write := localStorage_setItem (storageKey (syncManager w)) (JSON_stringify data) w in
  saveData data w
  = (Ok tt,
     match write.1 with
     | Throw _ => w
     | Ok _ =>
         match channel (syncManager w) with
         | Some ch =>
             if closed ch then write.2
             else {| localStorage := localStorage write.2;
                     posted := posted w ++ [DataUpdate data];
                     syncManager := syncManager w |}
         | None => write.2
         end
     end).
Proof.
  run_sync. destruct (denied (localStorage w)); [reflexivity|].
  destruct (quota (localStorage w) <? String.length (JSON_stringify data))%nat;
    [reflexivity|].
  cbv beta iota. simpl.
  destruct (channel (syncManager w)) as [ch|]; [|reflexivity].
  destruct (closed ch); reflexivity.
Qed.

(** C10. [saveData] returns without an exception. When the write to the
    storage throws, the call leaves everything as it was: nothing is
    posted. When the write succeeds, the text is stored, and the channel
    holds at most one message more, the snapshot. *)
Theorem persist_before_publish (w : Sync) (data : AppData.t) :
  let write := localStorage_setItem (storageKey (syncManager w)) (JSON_stringify data) w in
  let r := saveData data w in
  r.1 = Ok tt
  /\ match write.1 with
     | Throw _ => r.2 = w
     | Ok _ =>
         stored r.2 = Some (JSON_stringify data)
         /\ localStorage r.2 = localStorage write.2
         /\ (posted r.2 = posted w \/ posted r.2 = posted w ++ [DataUpdate data])
     end.
Proof.
  intros write r. subst r. rewrite saveData_run. fold write. split; [reflexivity|].
  cbn [fst snd].
  destruct (write.1) eqn:Hw; [|reflexivity].
  assert (Hst : stored write.2 = Some (JSON_stringify data)
                /\ posted write.2 = posted w /\ syncManager write.2 = syncManager w).
  { subst write. revert Hw. unfold localStorage_setItem, stored.
    destruct (denied (localStorage w)); [discriminate|].
    destruct (quota (localStorage w) <? String.length (JSON_stringify data))%nat;
      [discriminate|].
    intros _. simpl. split; [apply lookup_insert_eq | split; reflexivity]. }
  destruct Hst as (Hs & Hp & Hm).
  destruct (channel (syncManager w)) as [ch|]; [destruct (closed ch)|].
  - split; [exact Hs|]. split; [reflexivity|]. left. exact Hp.
  - split; [|split; [reflexivity | right; reflexivity]].
    unfold stored in *. simpl. rewrite <- Hm. exact Hs.
  - split; [exact Hs|]. split; [reflexivity|]. left. exact Hp.
Qed.

(** C9, as amended. [close()] returns and leaves the channel closed. On
    a tab whose channel is closed, [saveData] still writes the snapshot
    to the storage, as it does on any tab, but posts nothing; [onUpdate]
    changes neither the storage nor what was posted; no message reaches
    a callback; neither call throws, and the channel stays closed, so
    that this holds for every later call. *)
Theorem after_close (w : Sync) (data : AppData.t)
    (callback : AppData.t -> ChatState -> ChatState) :
  (close w).1 = Ok tt
  /\ channel_closed (close w).2
  /\ localStorage (close w).2 = localStorage w
  /\ posted (close w).2 = posted w
  /\ forall w1, channel_closed w1 ->
       let saved := saveData data w1 in
       let subscribed := onUpdate callback w1 in
       saved.1 = Ok tt
       /\ posted saved.2 = posted w1
       /\ localStorage saved.2
          = localStorage (localStorage_setItem (storageKey (syncManager w1))
                            (JSON_stringify data) w1).2
       /\ channel_closed saved.2
       /\ subscribed.1 = Ok tt
       /\ posted subscribed.2 = posted w1
       /\ localStorage subscribed.2 = localStorage w1
       /\ channel_closed subscribed.2
       /\ (forall message st, deliver message w1 st = st).
Proof.
  split; [|split; [|split; [|split]]].
  - run_sync. destruct (channel (syncManager w)); reflexivity.
  - unfold channel_closed. run_sync.
    destruct (channel (syncManager w)) as [ch|] eqn:Hch; simpl; [reflexivity|].
    rewrite Hch. exact I.
  - run_sync. destruct (channel (syncManager w)); reflexivity.
  - run_sync. destruct (channel (syncManager w)); reflexivity.
  - intros w1 Hclosed saved subscribed. subst saved subscribed.
    rewrite saveData_run. unfold channel_closed, deliver in *. run_sync.
    destruct (channel (syncManager w1)) as [ch|] eqn:Hch.
    + rewrite Hclosed.
      destruct (denied (localStorage w1)); simpl;
        [rewrite ?Hch; repeat split; (reflexivity || exact Hclosed)|].
      destruct (quota (localStorage w1) <? String.length (JSON_stringify data))%nat; simpl;
        rewrite ?Hch; repeat split; (reflexivity || exact Hclosed).
    + destruct (denied (localStorage w1)); simpl;
        [rewrite ?Hch; repeat split; reflexivity|].
      destruct (quota (localStorage w1) <? String.length (JSON_stringify data))%nat; simpl;
        rewrite ?Hch; repeat split; reflexivity.
Qed.

End RealTimeSyncClaims.

(** C9 as stated fails: on a tab with an empty storage, [saveData] after
    [close()] returns and leaves a snapshot stored. *)
Lemma saveData_after_close_writes :
  let w := small_tab None 100 in
  let w1 := (close w).2 in
  let r := @saveData (small_json []) AppData.empty w1 in
  stored w = None
  /\ stored w1 = None
  /\ r.1 = Ok tt
  /\ stored r.2 = Some "|"
  /\ posted r.2 = [].
Proof.
  vm_compute. repeat split; reflexivity.
Qed.

Example loadData_absent :
  @loadData (small_json small_table) (small_tab None 100) = (Ok None, small_tab None 100).
Proof. reflexivity. Qed.

Example loadData_corrupt :
  @loadData (small_json small_table) (small_tab (Some "{users:") 100)
  = (Ok None, small_tab (Some "{users:") 100).
Proof. reflexivity. Qed.

Example loadData_snapshot :
  @loadData (small_json small_table) (small_tab (Some "101,201|100,200") 100)
  = (Ok (Some small_snapshot), small_tab (Some "101,201|100,200") 100).
Proof. reflexivity. Qed.

(** A storage with no room for the text: nothing is stored, nothing is
    posted, no exception. *)
Example saveData_over_quota :
  @saveData (small_json small_table) small_snapshot (small_tab None 3)
  = (Ok tt, small_tab None 3).
Proof. reflexivity. Qed.

Example saveData_posts :
  posted (@saveData (small_json small_table) small_snapshot (small_tab None 100)).2
  = [DataUpdate small_snapshot].
Proof. reflexivity. Qed.

(** ** The update handler *)

(** C6, as amended. Whatever the local state was, the handler sets the
    list of users to [data.users] and the list of rooms to [data.rooms],
    the empty list for a field that is missing; with a room selected and
    a [messages] object in the snapshot it sets the list of messages to
    the entry of the room, the empty list when there is none. Without a
    [messages] object, or without a room, the messages stay. *)
Theorem whole_field_replace (selected : option string) (nick : string)
    (data : AppData.t) (st : ChatState) :
  let st' := handleDataUpdate selected nick data st in
  onlineUsers st' = default [] (AppData.users data)
  /\ chatRooms st' = default [] (AppData.rooms data)
  /\ (forall byRoom room,
        AppData.messages data = Some byRoom -> selected = Some room -> truthy room = true ->
        messages st' = default [] (byRoom !! room))
  /\ (AppData.messages data = None \/ selected = None -> messages st' = messages st)
  /\ (forall st2,
        onlineUsers (handleDataUpdate selected nick data st2) = onlineUsers st'
        /\ chatRooms (handleDataUpdate selected nick data st2) = chatRooms st'
        /\ (is_Some (AppData.messages data) ->
            (exists room, selected = Some room /\ truthy room = true) ->
            messages (handleDataUpdate selected nick data st2) = messages st')).
Proof.
  assert (Hfields : forall s,
             onlineUsers (handleDataUpdate selected nick data s)
             = default [] (AppData.users data)
             /\ chatRooms (handleDataUpdate selected nick data s)
                = default [] (AppData.rooms data)
             /\ messages (handleDataUpdate selected nick data s)
                = match AppData.messages data, selected with
                  | Some byRoom, Some room =>
                      if truthy room then default [] (byRoom !! room) else messages s
                  | _, _ => messages s
                  end).
  { intros s. unfold handleDataUpdate.
    destruct (AppData.messages data) as [byRoom|], selected as [room|];
      try destruct (truthy room); destruct (truthy nick); repeat split. }
  intros st'. subst st'.
  destruct (Hfields st) as (Hu & Hr & Hm).
  split; [exact Hu|]. split; [exact Hr|]. split; [|split].
  - intros byRoom room Hd Hs Ht. rewrite Hm, Hd, Hs, Ht. reflexivity.
  - intros [Hd|Hs]; rewrite Hm.
    + rewrite Hd. reflexivity.
    + rewrite Hs. destruct (AppData.messages data); reflexivity.
  - intros st2. destruct (Hfields st2) as (Hu2 & Hr2 & Hm2).
    split; [congruence|]. split; [congruence|].
    intros [byRoom Hd] (room & Hs & Ht).
    rewrite Hm, Hm2, Hd, Hs, Ht. reflexivity.
Qed.

(** C6 as stated fails: a room is selected and the snapshot has no
    [messages] object (as the one [handleSignup] saves on an empty
    storage); the list of messages is the one the tab had. *)
Lemma messages_kept_without_messages_field :
  let data := {| AppData.users := Some [bob_user]; AppData.rooms := Some [general_room];
                 AppData.messages := None; AppData.accounts := Some [bob_account] |} in
  let st := temp_session [temp_user] in
  selectedRoom st = Some "300"
  /\ messages (handleDataUpdate (selectedRoom st) (nickname st) data st) = [small_message]
  /\ messages (handleDataUpdate (selectedRoom st) (nickname st) data (setMessages [] st)) = []
  /\ [small_message] <> [].
Proof.
  vm_compute. repeat split; try reflexivity. discriminate.
Qed.

(** ** The end of a temporary session *)

Section BeforeUnload.
Context `{JSON}.

Lemma loadData_denied (w : Sync) :
  denied (localStorage w) = true -> loadData w = (Ok None, w).
Proof.
  intros Hd. unfold loadData, try_catch, bind, get, localStorage_getItem, ret.
  cbv beta iota. rewrite Hd. reflexivity.
Qed.

(** A write that the storage accepts. *)
Lemma saveData_writes (w : Sync) (data : AppData.t) :
  denied (localStorage w) = false ->
  (String.length (JSON_stringify data) <= quota (localStorage w))%nat ->
  exists w',
    saveData data w = (Ok tt, w')
    /\ stored w' = Some (JSON_stringify data)
    /\ denied (localStorage w') = false
    /\ quota (localStorage w') = quota (localStorage w).
Proof.
  intros Hd Hq. rewrite saveData_run. unfold localStorage_setItem, stored.
  rewrite Hd.
  replace (quota (localStorage w) <? String.length (JSON_stringify data))%nat with false
    by (symmetry; apply Nat.ltb_ge; exact Hq).
  cbn [fst snd]. eexists. split; [reflexivity|].
  destruct (channel (syncManager w)) as [ch|]; [destruct (closed ch)|]; simpl;
    (split; [apply lookup_insert_eq | split; reflexivity]).
Qed.

(** C7, as amended. The session of a temporary account ends; the storage
    holds a snapshot with a list of accounts, takes the two writes, and
    gives the first one back as written. Then the handler returns and the
    snapshot stored last has: as accounts, the stored ones but those of
    the id of the temporary account; as users, the list of this tab but
    the user of the session, in place of the stored list; the rooms and
    the messages that were stored. *)
Theorem temporary_account_purge (w : Sync) (st : ChatState) (account : Account.t)
    (saved : AppData.t) (accounts : list Account.t) :
  let stripped :=
    AppData.with_accounts
      (filter (fun acc => Account.id acc <> Account.id account) accounts) saved in
  let final :=
    AppData.with_users
      (filter (fun u => User.id u <> currentUserId st) (onlineUsers st)) stripped in
  currentAccount st = Some account ->
  Account.isTemporary account = Some true ->
  loadData w = (Ok (Some saved), w) ->
  AppData.accounts saved = Some accounts ->
  (String.length (JSON_stringify stripped) <= quota (localStorage w))%nat ->
  (String.length (JSON_stringify final) <= quota (localStorage w))%nat ->
  truthy (JSON_stringify stripped) = true ->
  JSON_parse (JSON_stringify stripped) = Ok (Some stripped) ->
  exists w',
    handleBeforeUnload st w = (Ok tt, w')
    /\ stored w' = Some (JSON_stringify final)
    /\ AppData.rooms final = AppData.rooms saved
    /\ AppData.messages final = AppData.messages saved
    /\ (exists kept,
          AppData.accounts final = Some kept
          /\ (forall acc, acc ∈ kept <-> acc ∈ accounts /\ Account.id acc <> Account.id account))
    /\ (exists kept,
          AppData.users final = Some kept
          /\ (forall u, u ∈ kept <-> u ∈ onlineUsers st /\ User.id u <> currentUserId st)).
Proof.
  intros stripped final Hcur Htemp Hload Hacc Hq1 Hq2 Htruthy Hparse.
  assert (Hd : denied (localStorage w) = false).
  { destruct (denied (localStorage w)) eqn:E; [|reflexivity].
    rewrite (loadData_denied w E) in Hload. discriminate. }
  destruct (saveData_writes w stripped Hd Hq1) as (w1 & Hsave1 & Hs1 & Hd1 & Hquota1).
  assert (Hload1 : loadData w1 = (Ok (Some stripped), w1)).
  { rewrite (loadData_stored w1 _ Hd1 Hs1), Htruthy, Hparse. reflexivity. }
  rewrite <- Hquota1 in Hq2.
  destruct (saveData_writes w1 final Hd1 Hq2) as (w2 & Hsave2 & Hs2 & _ & _).
  exists w2. split.
  - unfold handleBeforeUnload. rewrite Hcur, Htemp.
    unfold try_catch at 1. unfold bind at 1. rewrite Hload.
    cbv beta iota. rewrite Hacc. unfold bind at 1. fold stripped. rewrite Hsave1.
    cbv beta iota. unfold bind at 1. rewrite Hload1. cbv beta iota.
    simpl default. fold final. rewrite Hsave2. reflexivity.
  - split; [exact Hs2|]. split; [reflexivity|]. split; [reflexivity|]. split.
    + eexists. split; [reflexivity|]. intros acc. rewrite list_elem_of_filter. tauto.
    + eexists. split; [reflexivity|]. intros u. rewrite list_elem_of_filter. tauto.
Qed.

End BeforeUnload.

(** C7, as amended, on a tab whose list of users is the stored one. *)
Lemma temporary_account_purge_witness :
  exists w',
    @handleBeforeUnload (small_json small_table) (temp_session [temp_user; bob_user])
      (small_tab (Some "101,201|100,200") 100) = (Ok tt, w')
    /\ stored w' = Some "201|200"
    /\ (@loadData (small_json small_table) w').1
       = Ok (Some (AppData.with_users [bob_user]
                     (AppData.with_accounts [bob_account] small_snapshot))).
Proof.
  destruct (@temporary_account_purge (small_json small_table)
              (small_tab (Some "101,201|100,200") 100)
              (temp_session [temp_user; bob_user])
              temp_account small_snapshot [temp_account; bob_account])
    as (w' & Hrun & Hstored & _).
  - reflexivity.
  - reflexivity.
  - vm_compute. reflexivity.
  - reflexivity.
  - vm_compute. lia.
  - vm_compute. lia.
  - vm_compute. reflexivity.
  - vm_compute. reflexivity.
  - exists w'. split; [exact Hrun|]. split; [exact Hstored|].
    injection Hrun as <-. vm_compute. reflexivity.
Defined.

(** C7 as stated fails: the stored snapshot lists the user of the
    temporary account and [bob]; the list of the tab holds the first only
    (the tab has missed that [bob] joined). The snapshot written at the
    end has no user at all: [bob] is gone with the temporary one. *)
Lemma stored_users_are_overwritten :
  let json := small_json small_table in
  let w := small_tab (Some "101,201|100,200") 100 in
  let r := @handleBeforeUnload json (temp_session [temp_user]) w in
  @loadData json w = (Ok (Some small_snapshot), w)
  /\ AppData.users small_snapshot = Some [temp_user; bob_user]
  /\ User.id bob_user <> currentUserId (temp_session [temp_user])
  /\ r.1 = Ok tt
  /\ (@loadData json r.2).1
     = Ok (Some (AppData.with_users []
                   (AppData.with_accounts [bob_account] small_snapshot))).
Proof.
  vm_compute. repeat split; try reflexivity. discriminate.
Qed.

(** * More of the code *)

(** ** Keys *)

Section KeyFacts.
Context `{WebCrypto}.

(** X1. [generateKeyPair] settles the pair of the manager: when it
    returns a pair, the manager holds it, a further call returns the same
    pair and asks the generator for nothing, and a manager that already
    had a pair is left as it was; when the generator refuses, the manager
    still has no pair. The room keys and the random bytes drawn are not
    touched. *)
Theorem generateKeyPair_settles (c : Crypto) :
  match generateKeyPair c with
  | (Ok kp, c') =>
      keyPair (encryptionManager c') = Some kp
      /\ generateKeyPair c' = (Ok kp, c')
      /\ roomKeys (encryptionManager c') = roomKeys (encryptionManager c)
      /\ bytes_drawn c' = bytes_drawn c
      /\ (is_Some (keyPair (encryptionManager c)) -> c' = c)
  | (Throw e, c') =>
      keyPair (encryptionManager c') = None
      /\ roomKeys (encryptionManager c') = roomKeys (encryptionManager c)
      /\ bytes_drawn c' = bytes_drawn c
  end.
Proof.
  unfold generateKeyPair, bind, get, ret, set_manager, subtle_generateKey_RSA.
  cbv beta iota.
  destruct (keyPair (encryptionManager c)) as [kp|] eqn:Hkp.
  - rewrite Hkp. repeat split; auto.
  - destruct (generated_RSA_pair (keys_generated c)) as [kp|e]; cbn.
    + repeat split; auto. intros [? [=]].
    + split; [exact Hkp | split; reflexivity].
Qed.

(** X3. [generateRoomKey] returns what the generator gives, key or
    error. A key is stored for the room; an error leaves the key the room
    had. Either way the keys of the other rooms, the key pair and the
    random bytes drawn stay. *)
Theorem generateRoomKey_frame (c : Crypto) (roomId : string) :
  let r := generateRoomKey roomId c in
  r.1 = generated_AES_key (keys_generated c)
  /\ roomKeys (encryptionManager r.2) !! roomId
     = match generated_AES_key (keys_generated c) with
       | Ok key => Some key
       | Throw _ => roomKeys (encryptionManager c) !! roomId
       end
  /\ (forall other, other <> roomId ->
        roomKeys (encryptionManager r.2) !! other = roomKeys (encryptionManager c) !! other)
  /\ keyPair (encryptionManager r.2) = keyPair (encryptionManager c)
  /\ bytes_drawn r.2 = bytes_drawn c.
Proof.
  unfold generateRoomKey, bind, get, ret, set_manager, subtle_generateKey_AES.
  cbv beta iota zeta.
  destruct (generated_AES_key (keys_generated c)) as [key|e]; cbn.
  - split; [reflexivity|]. split; [apply lookup_insert_eq|].
    split; [|split; reflexivity].
    intros other Hne. apply lookup_insert_ne. congruence.
  - repeat split; reflexivity.
Qed.

(** [joinRoom] by the outcome of the generator. *)
Lemma joinRoom_run (c : Crypto) (roomId : string) :
  joinRoom roomId c = (Ok tt, (generateRoomKey roomId c).2).
Proof.
  unfold joinRoom, try_catch, bind, ret.
  destruct (generateRoomKey roomId c) as [[key|e] c']; reflexivity.
Qed.

Lemma generateRoomKey_refused (c : Crypto) (roomId : string) (e : JsError) :
  generated_AES_key (keys_generated c) = Throw e ->
  (generateRoomKey roomId c).1 = Throw e
  /\ encryptionManager (generateRoomKey roomId c).2 = encryptionManager c.
Proof.
  intros Hgen. unfold generateRoomKey, bind, subtle_generateKey_AES.
  rewrite Hgen. split; reflexivity.
Qed.

(** X4. [joinRoom] never throws. When the generator gives a key, the
    room has that key afterwards, and [encryptMessage] for the room
    returns for every message whose ciphertext, with the nonce, the
    engine takes as arguments, and throws the [RangeError] of the spread
    call for the others, never "No room key found". When the generator
    refuses, the manager is as it was, so a room that had no key still
    has none and [encryptMessage] throws "No room key found". *)
Theorem joinRoom_never_throws (c : Crypto) (roomId : string) :
  let r := joinRoom roomId c in
  r.1 = Ok tt
  /\ (forall key, generated_AES_key (keys_generated c) = Ok key ->
      roomKeys (encryptionManager r.2) !! roomId = Some key
      /\ forall message,
           let sealed :=
             AES_GCM_encrypt key (next_random_bytes 12 r.2)
               (UTF8.TextEncoder_encode message) in
           if 12 + Z.of_nat (length sealed) <=? max_arguments
           then is_ok (encryptMessage message roomId r.2).1 = true
           else (encryptMessage message roomId r.2).1 = Throw RangeError)
  /\ (is_ok (generated_AES_key (keys_generated c)) = false ->
      encryptionManager r.2 = encryptionManager c
      /\ (roomKeys (encryptionManager c) !! roomId = None ->
          forall message, (encryptMessage message roomId r.2).1 = Throw NoRoomKey)).
Proof.
  cbv zeta. rewrite joinRoom_run. cbn [fst snd]. split; [reflexivity|].
  split.
  - intros key Hgen.
    destruct (generateRoomKey_stores_new_key c roomId key Hgen) as (c' & Hrun & Hkey & _).
    rewrite Hrun. cbn [snd]. split; [exact Hkey|]. intros message.
    destruct (Z.leb_spec
                (12 + Z.of_nat (length (AES_GCM_encrypt key (next_random_bytes 12 c')
                                          (UTF8.TextEncoder_encode message))))
                max_arguments) as [Hfit|Hlong].
    + destruct (encryptMessage_envelope c' roomId key message Hkey Hfit) as (e & -> & _).
      reflexivity.
    + rewrite (encryptMessage_too_long c' roomId key message Hkey Hlong). reflexivity.
  - destruct (generated_AES_key (keys_generated c)) as [key|e] eqn:Hgen; cbn [is_ok];
      [discriminate|]. intros _.
    destruct (generateRoomKey_refused c roomId e Hgen) as [_ Hsame].
    split; [exact Hsame|]. intros Hnone message.
    unfold encryptMessage, bind, get, throw. cbv beta iota.
    rewrite Hsame, Hnone. reflexivity.
Qed.

End KeyFacts.

(** ** Texts *)

Lemma btoa_bytes (bs : list byte) :
  Base64.btoa (String_fromCharCode bs)
  = Ok ((Base64.alphabet <$> Base64.sextets (String_fromCharCode bs))
        ++ Base64.padding (length bs)).
Proof.
  unfold Base64.btoa.
  replace (forallb Base64.is_binary (String_fromCharCode bs)) with true.
  - unfold String_fromCharCode. rewrite length_fmap. reflexivity.
  - symmetry. apply forallb_forall. intros b Hb.
    pose proof (bytes_to_Z_range bs) as Hr. rewrite Forall_forall in Hr.
    apply list_elem_of_In, Hr in Hb. unfold octet in Hb. unfold Base64.is_binary.
    apply andb_true_intro. split; apply Z.leb_le; lia.
Qed.

(** What [btoa] writes for bytes: characters of Base64, four for every
    three bytes begun, and [atob] reads the bytes back. *)
Lemma btoa_bytes_shape (bs : list byte) :
  exists text,
    Base64.btoa (String_fromCharCode bs) = Ok text
    /\ Forall (fun ch => base64_char ch = true) text
    /\ (length text mod 4 = 0)%nat
    /\ Base64.atob text = Ok (String_fromCharCode bs).
Proof.
  rewrite btoa_bytes. eexists. split; [reflexivity|].
  pose proof (sextets_range _ (bytes_to_Z_range bs)) as Hsx.
  split; [|split].
  - apply Forall_app. split.
    + apply Forall_fmap. eapply Forall_impl; [exact Hsx|]. intros i Hi. simpl.
      unfold base64_char. rewrite (unalphabet_alphabet i Hi). reflexivity.
    + unfold Base64.padding.
      destruct (length bs mod 3)%nat as [|[|[|k]]]; repeat constructor.
  - rewrite length_app, length_fmap.
    pose proof (sextets_padding_length (String_fromCharCode bs)) as Hlen.
    unfold String_fromCharCode in Hlen at 2. rewrite length_fmap in Hlen. exact Hlen.
  - destruct (atob_btoa (String_fromCharCode bs) (bytes_to_Z_range bs))
      as (text & Hbtoa & Hatob).
    rewrite btoa_bytes in Hbtoa. apply Ok_inj in Hbtoa. subst text. exact Hatob.
Qed.

Section ExportFacts.
Context `{WebCrypto} `{!KeyExport}.

(** X2. [exportPublicKey] makes sure of a key pair and returns its
    public key as Base64 text: the text decodes to the exported bytes, a
    further call returns the same text and changes nothing. It throws
    only when there is no pair and the generator refuses, and then the
    manager still has no pair. *)
Theorem exportPublicKey_stable (c : Crypto) :
  match exportPublicKey c with
  | (Ok text, c') =>
      exportPublicKey c' = (Ok text, c')
      /\ Forall (fun ch => base64_char ch = true) text
      /\ exists kp,
           keyPair (encryptionManager c') = Some kp
           /\ Base64.atob text = Ok (String_fromCharCode (exportKey_spki kp))
  | (Throw e, c') =>
      keyPair (encryptionManager c) = None
      /\ keyPair (encryptionManager c') = None
      /\ generated_RSA_pair (keys_generated c) = Throw e
  end.
Proof.
  assert (Hhave : forall c0 kp,
             keyPair (encryptionManager c0) = Some kp ->
             exportPublicKey c0
             = (Base64.btoa (String_fromCharCode (exportKey_spki kp)), c0)).
  { intros c0 kp Hkp. unfold exportPublicKey, bind, get, ret, lift.
    cbv beta iota. rewrite Hkp. cbv beta iota.
    rewrite spread_fits by apply exportKey_spki_fits.
    destruct (Base64.btoa _); reflexivity. }
  destruct (keyPair (encryptionManager c)) as [kp|] eqn:Hkp.
  - rewrite (Hhave c kp Hkp).
    destruct (btoa_bytes_shape (exportKey_spki kp)) as (text & Hb & Hchars & _ & Ha).
    rewrite Hb. split; [rewrite (Hhave c kp Hkp); rewrite Hb; reflexivity|].
    split; [exact Hchars|]. exists kp. split; [exact Hkp | exact Ha].
  - unfold exportPublicKey, bind, get, lift at 1. cbv beta iota. rewrite Hkp.
    unfold generateKeyPair, bind, get, ret, set_manager, subtle_generateKey_RSA.
    cbv beta iota. rewrite Hkp.
    destruct (generated_RSA_pair (keys_generated c)) as [kp|e]; cbn.
    + destruct (btoa_bytes_shape (exportKey_spki kp)) as (text & Hb & Hchars & _ & Ha).
      unfold lift. rewrite spread_fits by apply exportKey_spki_fits. rewrite Hb.
      split; [|split; [exact Hchars | exists kp; split; [reflexivity | exact Ha]]].
      unfold exportPublicKey, bind, get, lift. cbn.
      rewrite spread_fits by apply exportKey_spki_fits. rewrite Hb. reflexivity.
    + split; [reflexivity|]. split; [exact Hkp | reflexivity].
Qed.

End ExportFacts.

Section MessageFacts.
Context `{WebCrypto}.

(** X5. With a key for the room and a ciphertext that, with the nonce,
    the engine takes as arguments, the envelope [encryptMessage] returns
    is a text of Base64 characters whose length is a multiple of four; it
    decodes to the twelve bytes of the nonce followed by the
    ciphertext. *)
Theorem envelope_is_base64 (c : Crypto) (roomId : string) (key : CryptoKey)
    (message : list Z) :
  roomKeys (encryptionManager c) !! roomId = Some key ->
  12 + Z.of_nat (length (AES_GCM_encrypt key (next_random_bytes 12 c)
                           (UTF8.TextEncoder_encode message)))
  <= max_arguments ->
  exists envelope binary,
    (encryptMessage message roomId c).1 = Ok envelope
    /\ Forall (fun ch => base64_char ch = true) envelope
    /\ (length envelope mod 4 = 0)%nat
    /\ Base64.atob envelope = Ok binary
    /\ bytes_of_binary_string binary
       = next_random_bytes 12 c
         ++ AES_GCM_encrypt key (next_random_bytes 12 c) (UTF8.TextEncoder_encode message)
    /\ length binary
       = (12 + length (AES_GCM_encrypt key (next_random_bytes 12 c)
                         (UTF8.TextEncoder_encode message)))%nat.
Proof.
  intros Hkey Hfit. rewrite (encryptMessage_run c roomId key message Hkey). cbn [fst].
  rewrite spread_fits by (rewrite combined_length; exact Hfit).
  destruct (btoa_bytes_shape
              (next_random_bytes 12 c
               ++ AES_GCM_encrypt key (next_random_bytes 12 c)
                    (UTF8.TextEncoder_encode message)))
    as (text & Hb & Hchars & Hlen & Ha).
  exists text. eexists. split; [exact Hb|]. split; [exact Hchars|].
  split; [exact Hlen|]. split; [exact Ha|]. split.
  - unfold bytes_of_binary_string, String_fromCharCode. apply bytes_of_to_Z.
  - unfold String_fromCharCode. rewrite length_fmap, length_app, next_random_bytes_length.
    reflexivity.
Qed.

(** [decryptMessage] draws nothing and stores nothing. *)
Lemma decryptMessage_state (c : Crypto) (roomId : string) (envelope : list Z) :
  (decryptMessage envelope roomId c).2 = c.
Proof.
  unfold decryptMessage, bind, get, lift, ret, throw. cbv beta iota.
  destruct (roomKeys (encryptionManager c) !! roomId) as [key|]; [|reflexivity].
  destruct (Base64.atob envelope) as [binary|e]; [|reflexivity].
  cbv beta iota zeta.
  destruct (AES_GCM_decrypt key _ _); reflexivity.
Qed.

(** What the manager that encrypted reads back, with a correct cipher:
    the plaintext as the two codecs make it. *)
Lemma decrypt_encrypt (c : Crypto) (roomId : string) (key : CryptoKey)
    (plaintext : list Z) :
  aead_correct ->
  roomKeys (encryptionManager c) !! roomId = Some key ->
  12 + Z.of_nat (length (AES_GCM_encrypt key (next_random_bytes 12 c)
                           (UTF8.TextEncoder_encode plaintext)))
  <= max_arguments ->
  exists envelope,
    encryptMessage plaintext roomId c = (Ok envelope, (getRandomValues 12 c).2)
    /\ decryptMessage envelope roomId (getRandomValues 12 c).2
       = (Ok (UTF8.TextDecoder_decode (UTF8.TextEncoder_encode plaintext)),
          (getRandomValues 12 c).2).
Proof.
  intros Hcorrect Hkey Hfit.
  destruct (encryptMessage_envelope c roomId key plaintext Hkey Hfit)
    as (envelope & Henc & Hatob).
  exists envelope. split; [exact Henc|].
  rewrite (decryptMessage_envelope (getRandomValues 12 c).2 roomId key envelope _ _ Hkey
             (next_random_bytes_length 12 c) Hatob).
  rewrite Hcorrect. reflexivity.
Qed.

End MessageFacts.

Lemma toWellFormed_cons (a : Z) (rest : list Z) :
  toWellFormed (a :: rest)
  = if UTF8.is_lead_surrogate a then
      match rest with
      | d :: rest' =>
          if UTF8.is_trail_surrogate d then a :: d :: toWellFormed rest'
          else 0xFFFD :: toWellFormed rest
      | [] => [0xFFFD]
      end
    else if UTF8.is_trail_surrogate a then 0xFFFD :: toWellFormed rest
    else a :: toWellFormed rest.
Proof. reflexivity. Qed.

(** The scalar values of a string, written in UTF-16 again. *)
Lemma code_units_of_scalar_values (s : list Z) :
  js_string s -> UTF8.scalar_values s ≫= UTF8.code_units = toWellFormed s.
Proof.
  unfold js_string.
  induction s as [|a|a b l IH0 IH1] using list_ind2; intros Hs;
    [reflexivity|rewrite scalar_values_cons, toWellFormed_cons; cbv beta iota..].
  - inversion_clear Hs as [|? ? Ha _].
    destruct (UTF8.is_lead_surrogate a) eqn:E1; [reflexivity|].
    destruct (UTF8.is_trail_surrogate a) eqn:E2; [reflexivity|].
    rewrite bind_cons. unfold UTF8.code_units. decide_tests. reflexivity.
  - inversion_clear Hs as [|? ? Ha Hbl]. pose proof Hbl as Hbl'.
    inversion_clear Hbl as [|? ? Hb Hl].
    destruct (UTF8.is_lead_surrogate a) eqn:E1.
    + destruct (UTF8.is_trail_surrogate b) eqn:E2.
      * rewrite bind_cons, (IH0 Hl).
        revert E1 E2. unfold UTF8.is_lead_surrogate, UTF8.is_trail_surrogate.
        rewrite !andb_true_iff, !Z.leb_le. intros E1 E2.
        unfold UTF8.code_units. decide_tests. f_equal; [lia|]. f_equal. lia.
      * rewrite bind_cons, (IH1 Hbl'). reflexivity.
    + destruct (UTF8.is_trail_surrogate a) eqn:E2.
      * rewrite bind_cons, (IH1 Hbl'). reflexivity.
      * rewrite bind_cons, (IH1 Hbl'). unfold UTF8.code_units. decide_tests. reflexivity.
Qed.

Lemma strip_BOM_code_units (cps : list Z) :
  Forall (fun cp => UTF8.is_scalar cp = true) cps ->
  UTF8.strip_BOM cps ≫= UTF8.code_units = UTF8.strip_BOM (cps ≫= UTF8.code_units).
Proof.
  intros Hall. destruct cps as [|cp rest]; [reflexivity|].
  destruct (Z.eq_dec cp 0xFEFF) as [->|Hne]; [reflexivity|].
  rewrite (strip_BOM_id (cp :: rest)) by (simpl; congruence).
  symmetry. apply strip_BOM_id. rewrite bind_cons.
  inversion_clear Hall as [|? ? Hcp _]. revert Hcp. unfold UTF8.is_scalar.
  rewrite !andb_true_iff, !Z.leb_le. intros [[H0 Hmax] _].
  unfold UTF8.code_units. destruct (Z.leb_spec cp 0xFFFF); simpl; intros [=]; lia.
Qed.

Section RoundTripFacts.
Context `{WebCrypto}.

(** X6. With a correct cipher, a key for the room and a ciphertext that,
    with the nonce, the engine takes as arguments, the manager that
    encrypted a string decrypts the envelope, for every such string, to
    the string made well-formed (U+FFFD for each unpaired surrogate) and
    without a U+FEFF at its head; neither call throws. *)
Theorem round_trip_normalises (c : Crypto) (roomId : string) (key : CryptoKey)
    (plaintext : list Z) :
  aead_correct ->
  roomKeys (encryptionManager c) !! roomId = Some key ->
  js_string plaintext ->
  12 + Z.of_nat (length (AES_GCM_encrypt key (next_random_bytes 12 c)
                           (UTF8.TextEncoder_encode plaintext)))
  <= max_arguments ->
  exists envelope c',
    encryptMessage plaintext roomId c = (Ok envelope, c')
    /\ decryptMessage envelope roomId c'
       = (Ok (UTF8.strip_BOM (toWellFormed plaintext)), c').
Proof.
  intros Hcorrect Hkey Hs Hfit.
  destruct (decrypt_encrypt c roomId key plaintext Hcorrect Hkey Hfit) as (envelope & He & Hd).
  exists envelope, (getRandomValues 12 c).2. split; [exact He|]. rewrite Hd.
  rewrite (decode_encode plaintext Hs).
  rewrite strip_BOM_code_units by (apply scalar_values_scalar, Hs).
  rewrite (code_units_of_scalar_values plaintext Hs). reflexivity.
Qed.

(** X7. [getDisplayContent] returns for every message, room and state,
    and changes nothing: the content as it is when the message is not
    marked encrypted or no room is selected, and otherwise the decoded
    plaintext or, when [decryptMessage] throws, the text
    "[Encrypted message - decryption failed]". *)
Theorem getDisplayContent_returns (message : ChatMessage.t) (selected : option string)
    (c : Crypto) :
  exists text,
    getDisplayContent message selected c = (Ok text, c)
    /\ (ChatMessage.encrypted message <> Some true \/ selected = None \/ selected = Some ""
        -> text = ChatMessage.content message)
    /\ (forall room,
          ChatMessage.encrypted message = Some true -> selected = Some room ->
          truthy room = true ->
          text = match (decryptMessage (ChatMessage.content message) room c).1 with
                 | Ok plaintext => plaintext
                 | Throw _ => js "[Encrypted message - decryption failed]"
                 end).
Proof.
  change (js "[Encrypted message - decryption failed]") with decryption_failed.
  unfold getDisplayContent.
  destruct (ChatMessage.encrypted message) as [[|]|] eqn:He;
    try (eexists; split; [reflexivity|]; split; [reflexivity | intros; discriminate]).
  destruct selected as [room|];
    [|eexists; split; [reflexivity|]; split; [reflexivity | intros; discriminate]].
  destruct (truthy room) eqn:Ht.
  - unfold try_catch, ret.
    pose proof (decryptMessage_state c room (ChatMessage.content message)) as Hst.
    destruct (decryptMessage (ChatMessage.content message) room c)
      as [[plaintext|e] c'] eqn:Hd;
      simpl in Hst; subst c'; eexists; (split; [reflexivity|]); split.
    + intros [Hne|[Hs|Hs]]; [congruence | discriminate |].
      injection Hs as ->. discriminate.
    + intros room' _ [= <-] _. rewrite Hd. reflexivity.
    + intros [Hne|[Hs|Hs]]; [congruence | discriminate |].
      injection Hs as ->. discriminate.
    + intros room' _ [= <-] _. rewrite Hd. reflexivity.
  - eexists. split; [reflexivity|]. split; [reflexivity|].
    intros room' _ [= <-] Ht'. congruence.
Qed.

End RoundTripFacts.

(** ** Sending a message *)

Lemma trim_start_head (s : list Z) (c : Z) :
  head (trim_start s) = Some c -> is_white_space c = false.
Proof.
  induction s as [|a s IH]; simpl; [discriminate|].
  destruct (is_white_space a) eqn:Ea; [exact IH|].
  simpl. intros [= <-]. exact Ea.
Qed.

Lemma trim_end_cons (c : Z) (rest : list Z) :
  trim_end (c :: rest)
  = match trim_end rest with
    | [] => if is_white_space c then [] else [c]
    | kept => c :: kept
    end.
Proof. reflexivity. Qed.

Lemma trim_end_head (s : list Z) (c : Z) :
  head (trim_end s) = Some c -> head s = Some c.
Proof.
  destruct s as [|a s]; [discriminate|]. rewrite trim_end_cons.
  destruct (trim_end s); [destruct (is_white_space a)|]; simpl; congruence.
Qed.

Lemma String_trim_head (s : list Z) : head (String_trim s) <> Some 0xFEFF.
Proof.
  intros Hh. apply trim_end_head, trim_start_head in Hh. discriminate.
Qed.

Lemma white_space_not_surrogate (c : Z) :
  is_white_space c = true ->
  UTF8.is_lead_surrogate c = false /\ UTF8.is_trail_surrogate c = false.
Proof.
  unfold is_white_space, UTF8.is_lead_surrogate, UTF8.is_trail_surrogate.
  rewrite !orb_true_iff, !andb_true_iff, !Z.eqb_eq, !Z.leb_le, !andb_false_iff, !Z.leb_gt.
  lia.
Qed.

Lemma well_formed_trim_start (s : list Z) :
  UTF8.well_formed s = true -> UTF8.well_formed (trim_start s) = true.
Proof.
  induction s as [|a s IH]; [reflexivity|]. simpl trim_start.
  destruct (is_white_space a) eqn:Ea; [|auto].
  destruct (white_space_not_surrogate a Ea) as [E1 E2].
  rewrite well_formed_cons, E1, E2. rewrite !andb_true_iff. intros [_ Hs]. auto.
Qed.

Lemma well_formed_trim_end (s : list Z) :
  UTF8.well_formed s = true -> UTF8.well_formed (trim_end s) = true.
Proof.
  induction s as [|a|a b l IH0 IH1] using list_ind2.
  - reflexivity.
  - rewrite trim_end_cons. simpl trim_end. destruct (is_white_space a); auto.
  - rewrite well_formed_cons. cbv beta iota.
    destruct (UTF8.is_lead_surrogate a) eqn:E1.
    + rewrite andb_true_iff. intros [E2 Hl].
      assert (Hb : is_white_space b = false).
      { destruct (is_white_space b) eqn:Eb; [|reflexivity].
        destruct (white_space_not_surrogate b Eb). congruence. }
      assert (Hbl : trim_end (b :: l) = b :: trim_end l).
      { rewrite trim_end_cons. destruct (trim_end l); [rewrite Hb|]; reflexivity. }
      rewrite trim_end_cons, Hbl, well_formed_cons, E1. cbv beta iota.
      rewrite E2. simpl. auto.
    + intros Hall. pose proof Hall as Hall'. revert Hall'.
      rewrite !andb_true_iff. intros [[[Ht H0] Hmax] Hbl].
      rewrite trim_end_cons. specialize (IH1 Hbl).
      destruct (trim_end (b :: l)) as [|k kept] eqn:Ek.
      * destruct (is_white_space a); [reflexivity|].
        rewrite well_formed_cons, E1, Ht, H0, Hmax. reflexivity.
      * rewrite well_formed_cons, E1, Ht, H0, Hmax, IH1. reflexivity.
Qed.

Lemma well_formed_String_trim (s : list Z) :
  UTF8.well_formed s = true -> UTF8.well_formed (String_trim s) = true.
Proof.
  intros Hs. apply well_formed_trim_end, well_formed_trim_start, Hs.
Qed.

Section SendMessageFacts.
Context `{WebCrypto}.

(** X8. A message sent is read back. With a correct cipher, a room
    selected that has its key, encryption ready, and a well-formed input
    that is not blank and whose ciphertext, with the nonce, the engine
    takes as arguments, the message is sent: one message is appended,
    marked encrypted, the input field is emptied, and [getDisplayContent]
    on this tab gives for that message the input without the white space
    around it. *)
Theorem sent_message_reads_back (c : Crypto) (st : ChatState) (room : string)
    (key : CryptoKey) (idTime sentAt : Z) (currentUser : string) (messageInput : list Z) :
  aead_correct ->
  selectedRoom st = Some room ->
  truthy room = true ->
  roomKeys (encryptionManager c) !! room = Some key ->
  UTF8.well_formed messageInput = true ->
  String_trim messageInput <> [] ->
  12 + Z.of_nat (length (AES_GCM_encrypt key (next_random_bytes 12 c)
                           (UTF8.TextEncoder_encode (String_trim messageInput))))
  <= max_arguments ->
  exists message st' c',
    handleSendMessage idTime sentAt currentUser true messageInput st c = (Ok (st', []), c')
    /\ messages st' = messages st ++ [message]
    /\ ChatMessage.encrypted message = Some true
    /\ ChatMessage.senderId message = currentUserId st
    /\ getDisplayContent message (selectedRoom st') c' = (Ok (String_trim messageInput), c').
Proof.
  intros Hcorrect Hsel Htruthy Hkey Hwf Hblank Hfit.
  destruct (decrypt_encrypt c room key (String_trim messageInput) Hcorrect Hkey Hfit)
    as (envelope & Henc & Hdec).
  rewrite TextDecoder_TextEncoder in Hdec
    by (apply well_formed_String_trim, Hwf || apply String_trim_head).
  unfold handleSendMessage. rewrite Hsel, Htruthy.
  destruct (String_trim messageInput) as [|ch rest] eqn:Htrim; [congruence|].
  cbn [andb]. unfold try_catch, bind. rewrite Henc. cbv beta iota zeta. unfold ret.
  do 3 eexists. split; [reflexivity|]. cbn [messages setMessages].
  split; [reflexivity|]. split; [reflexivity|]. split; [reflexivity|].
  unfold getDisplayContent. cbn [ChatMessage.encrypted ChatMessage.content selectedRoom setMessages].
  rewrite Hsel, Htruthy.
  unfold try_catch. rewrite Hdec. reflexivity.
Qed.

(** X23. A message too long for one call is dropped. With a room
    selected that has its key and encryption ready, an input that is not
    blank and whose ciphertext, with the nonce, is more than the engine
    takes as arguments makes [encryptMessage] throw the [RangeError] of
    the spread call; [handleSendMessage] catches it: no message is
    appended, the input field keeps the text, and twelve random bytes
    were drawn. *)
Theorem long_message_is_dropped (c : Crypto) (st : ChatState) (room : string)
    (key : CryptoKey) (idTime sentAt : Z) (currentUser : string) (messageInput : list Z) :
  selectedRoom st = Some room ->
  truthy room = true ->
  roomKeys (encryptionManager c) !! room = Some key ->
  String_trim messageInput <> [] ->
  max_arguments
  < 12 + Z.of_nat (length (AES_GCM_encrypt key (next_random_bytes 12 c)
                             (UTF8.TextEncoder_encode (String_trim messageInput)))) ->
  encryptMessage (String_trim messageInput) room c
  = (Throw RangeError, (getRandomValues 12 c).2)
  /\ handleSendMessage idTime sentAt currentUser true messageInput st c
     = (Ok (st, messageInput), (getRandomValues 12 c).2)
  /\ bytes_drawn (getRandomValues 12 c).2 = (bytes_drawn c + 12)%nat
  /\ encryptionManager (getRandomValues 12 c).2 = encryptionManager c.
Proof.
  intros Hsel Htruthy Hkey Hblank Hlong.
  pose proof (encryptMessage_too_long c room key (String_trim messageInput) Hkey Hlong)
    as Hthrow.
  split; [exact Hthrow|]. split; [|split; reflexivity].
  unfold handleSendMessage. rewrite Hsel, Htruthy.
  destruct (String_trim messageInput) as [|ch rest] eqn:Htrim; [congruence|].
  cbn [andb]. unfold try_catch, bind. rewrite Hthrow. reflexivity.
Qed.

(** X9. [handleSendMessage] never throws. When the input is blank, no
    room is selected, encryption is not ready, or the room has no key, it
    leaves the messages, the input field and the manager as they were,
    and draws no random byte. *)
Theorem handleSendMessage_guards (c : Crypto) (st : ChatState) (idTime sentAt : Z)
    (currentUser : string) (isEncryptionReady : bool) (messageInput : list Z) :
  let r := handleSendMessage idTime sentAt currentUser isEncryptionReady messageInput st c in
  is_ok r.1 = true
  /\ (String_trim messageInput = []
      \/ selectedRoom st = None \/ selectedRoom st = Some ""
      \/ isEncryptionReady = false
      \/ (exists room, selectedRoom st = Some room
                       /\ roomKeys (encryptionManager c) !! room = None)
      -> r = (Ok (st, messageInput), c)).
Proof.
  cbv zeta. unfold handleSendMessage.
  destruct (String_trim messageInput) as [|ch rest] eqn:Htrim;
    [split; [reflexivity | intros _; reflexivity]|].
  destruct (selectedRoom st) as [room|] eqn:Hsel;
    [|split; [reflexivity | intros _; reflexivity]].
  destruct (truthy room) eqn:Htruthy;
    [|split; [reflexivity | intros _; reflexivity]].
  destruct isEncryptionReady;
    [|split; [reflexivity | intros _; reflexivity]].
  cbn [andb]. unfold try_catch, bind, ret.
  destruct (roomKeys (encryptionManager c) !! room) as [key|] eqn:Hkey.
  - destruct (encryptMessage (ch :: rest) room c) as [[envelope|e] c'];
      cbv beta iota zeta;
      (split; [reflexivity|];
       intros [Hb|[Hn|[He|[Hr|(room' & Hs & Hk)]]]]; try discriminate;
       [injection He as ->; discriminate | injection Hs as <-; congruence]).
  - assert (Hthrow : encryptMessage (ch :: rest) room c = (Throw NoRoomKey, c)).
    { unfold encryptMessage, bind, get, throw. cbv beta iota. rewrite Hkey. reflexivity. }
    rewrite Hthrow. split; [reflexivity | intros _; reflexivity].
Qed.

End SendMessageFacts.

(** X5 on "hello". *)
Lemma envelope_is_base64_witness :
  exists envelope binary,
    (@encryptMessage small_crypto (js "hello") "room-42"
       (@tab_with_key small_crypto "room-42" x2a 0)).1 = Ok envelope
    /\ Forall (fun ch => base64_char ch = true) envelope
    /\ (length envelope mod 4 = 0)%nat
    /\ Base64.atob envelope = Ok binary
    /\ length binary = 18%nat.
Proof.
  destruct (@envelope_is_base64 small_crypto (@tab_with_key small_crypto "room-42" x2a 0)
              "room-42" x2a (js "hello") eq_refl)
    as (envelope & binary & He & Hchars & Hlen & Ha & _ & Hbinary).
  - vm_compute. discriminate.
  - exists envelope, binary. repeat split; assumption.
Defined.

(** X6 on a string with a byte order mark and an unpaired surrogate. *)
Lemma round_trip_normalises_witness :
  exists envelope c',
    @encryptMessage small_crypto [0xFEFF; 0x68; 0xDC00; 0x69] "room-42"
      (@tab_with_key small_crypto "room-42" x2a 0) = (Ok envelope, c')
    /\ @decryptMessage small_crypto envelope "room-42" c' = (Ok [0x68; 0xFFFD; 0x69], c').
Proof.
  apply (@round_trip_normalises small_crypto
           (@tab_with_key small_crypto "room-42" x2a 0) "room-42" x2a
           [0xFEFF; 0x68; 0xDC00; 0x69]).
  - exact small_crypto_correct.
  - reflexivity.
  - repeat constructor; lia.
  - vm_compute. discriminate.
Defined.

(** X8 on "  hello " typed in the room "300". *)
Lemma sent_message_reads_back_witness :
  exists message st' c',
    @handleSendMessage small_crypto 1700000000001 1700000000002 "tmp" true
      (js "  hello ") (temp_session [temp_user]) (@tab_with_key small_crypto "300" x2a 0)
    = (Ok (st', []), c')
    /\ messages st' = messages (temp_session [temp_user]) ++ [message]
    /\ ChatMessage.encrypted message = Some true
    /\ ChatMessage.senderId message = "101"
    /\ @getDisplayContent small_crypto message (selectedRoom st') c' = (Ok (js "hello"), c').
Proof.
  apply (@sent_message_reads_back small_crypto
           (@tab_with_key small_crypto "300" x2a 0) (temp_session [temp_user]) "300" x2a
           1700000000001 1700000000002 "tmp" (js "  hello ")).
  - exact small_crypto_correct.
  - reflexivity.
  - reflexivity.
  - reflexivity.
  - reflexivity.
  - vm_compute. discriminate.
  - vm_compute. discriminate.
Defined.

(** X23 on an input of 65536 letters: with the nonce and the tag of the
    small cipher, 65549 arguments for an engine that takes 65536. *)
Lemma long_message_is_dropped_witness :
  let input := repeat 97 (Z.to_nat 65536) in
  let tab := @tab_with_key small_crypto "300" x2a 0 in
  @encryptMessage small_crypto (String_trim input) "300" tab
  = (Throw RangeError, (@getRandomValues small_crypto 12 tab).2)
  /\ @handleSendMessage small_crypto 1700000000001 1700000000002 "tmp" true input
       (temp_session [temp_user]) tab
     = (Ok (temp_session [temp_user], input), (@getRandomValues small_crypto 12 tab).2)
  /\ bytes_drawn (@getRandomValues small_crypto 12 tab).2 = 12%nat
  /\ encryptionManager (@getRandomValues small_crypto 12 tab).2 = encryptionManager tab.
Proof.
  apply (@long_message_is_dropped small_crypto
           (@tab_with_key small_crypto "300" x2a 0) (temp_session [temp_user]) "300" x2a
           1700000000001 1700000000002 "tmp" (repeat 97 (Z.to_nat 65536))).
  - reflexivity.
  - reflexivity.
  - reflexivity.
  - intros Hempty. apply (f_equal (fun s => Z.of_nat (length s))) in Hempty.
    vm_compute in Hempty. discriminate.
  - vm_compute. reflexivity.
Defined.

(** ** Saving, loading, subscribing *)

Section StoreFacts.
Context `{JSON}.

(** X10. What is saved is what is loaded: when the storage takes the
    text of a snapshot and [JSON.parse] reads it back, [loadData] after
    [saveData] returns that snapshot, whatever was stored before. *)
Theorem load_after_save (w : Sync) (data : AppData.t) :
  denied (localStorage w) = false ->
  (String.length (JSON_stringify data) <= quota (localStorage w))%nat ->
  truthy (JSON_stringify data) = true ->
  JSON_parse (JSON_stringify data) = Ok (Some data) ->
  exists w',
    saveData data w = (Ok tt, w')
    /\ loadData w' = (Ok (Some data), w').
Proof.
  intros Hd Hq Ht Hp.
  destruct (saveData_writes w data Hd Hq) as (w' & Hsave & Hstored & Hd' & _).
  exists w'. split; [exact Hsave|].
  rewrite (loadData_stored w' _ Hd' Hstored), Ht, Hp. reflexivity.
Qed.

(** [loadData] leaves everything as it is. *)
Lemma loadData_state (w : Sync) : (loadData w).2 = w.
Proof.
  unfold loadData, try_catch, bind, get, ret, lift, localStorage_getItem.
  cbv beta iota.
  destruct (denied (localStorage w)); [reflexivity|]. cbv beta iota.
  destruct (items (localStorage w) !! storageKey (syncManager w)) as [text|];
    [|reflexivity].
  destruct (truthy text); [|reflexivity].
  destruct (JSON_parse text); reflexivity.
Qed.

Lemma loadData_ok (w : Sync) :
  loadData w = (Ok (returned None (loadData w).1), w).
Proof.
  pose proof (loadData_state w) as Hs. revert Hs.
  unfold loadData, try_catch, bind, get, ret, lift, localStorage_getItem.
  cbv beta iota.
  destruct (denied (localStorage w)); [reflexivity|]. cbv beta iota.
  destruct (items (localStorage w) !! storageKey (syncManager w)) as [text|];
    [|reflexivity].
  destruct (truthy text); [|reflexivity].
  destruct (JSON_parse text); reflexivity.
Qed.

(** [saveData] by what it leaves stored. *)
Lemma saveData_outcome (w : Sync) (data : AppData.t) :
  exists w',
    saveData data w = (Ok tt, w')
    /\ syncManager w' = syncManager w
    /\ denied (localStorage w') = denied (localStorage w)
    /\ quota (localStorage w') = quota (localStorage w)
    /\ (w' = w \/ stored w' = Some (JSON_stringify data)).
Proof.
  rewrite saveData_run. eexists. split; [reflexivity|].
  unfold localStorage_setItem, stored.
  destruct (denied (localStorage w)) eqn:Hd; cbn [fst snd];
    [repeat split; auto|].
  destruct (quota (localStorage w) <? String.length (JSON_stringify data))%nat;
    cbn [fst snd]; [repeat split; auto|].
  destruct (channel (syncManager w)) as [ch|]; [destruct (closed ch)|]; cbn;
    (split; [reflexivity|]; split; [reflexivity|]; split; [reflexivity|];
     right; apply lookup_insert_eq).
Qed.

(** [saveData] when the storage takes the text: it is stored, and then
    posted on an open channel. *)
Lemma saveData_accepted (w : Sync) (data : AppData.t) :
  denied (localStorage w) = false ->
  (String.length (JSON_stringify data) <= quota (localStorage w))%nat ->
  exists w',
    saveData data w = (Ok tt, w')
    /\ stored w' = Some (JSON_stringify data)
    /\ syncManager w' = syncManager w
    /\ denied (localStorage w') = false
    /\ quota (localStorage w') = quota (localStorage w)
    /\ posted w'
       = match channel (syncManager w) with
         | Some ch => if closed ch then posted w else posted w ++ [DataUpdate data]
         | None => posted w
         end.
Proof.
  intros Hd Hq. rewrite saveData_run. unfold localStorage_setItem, stored.
  rewrite Hd.
  replace (quota (localStorage w) <? String.length (JSON_stringify data))%nat with false
    by (symmetry; apply Nat.ltb_ge; exact Hq).
  cbn [fst snd]. eexists. split; [reflexivity|].
  destruct (channel (syncManager w)) as [ch|]; [destruct (closed ch)|]; cbn;
    (split; [apply lookup_insert_eq | repeat split; reflexivity]).
Qed.

(** [saveData] when the storage refuses the text: nothing at all. *)
Lemma saveData_refused (w : Sync) (data : AppData.t) :
  denied (localStorage w) = true
  \/ (quota (localStorage w) < String.length (JSON_stringify data))%nat ->
  saveData data w = (Ok tt, w).
Proof.
  intros Hrefused. rewrite saveData_run. unfold localStorage_setItem.
  destruct (denied (localStorage w)) eqn:Hd; [reflexivity|].
  destruct Hrefused as [Hden|Hq]; [discriminate|].
  replace (quota (localStorage w) <? String.length (JSON_stringify data))%nat with true
    by (symmetry; apply Nat.ltb_lt; exact Hq).
  reflexivity.
Qed.

End StoreFacts.

(** X10 on the small snapshot, over a text stored before. *)
Lemma load_after_save_witness :
  exists w',
    @saveData (small_json small_table) small_snapshot (small_tab (Some "201|200") 100)
    = (Ok tt, w')
    /\ @loadData (small_json small_table) w' = (Ok (Some small_snapshot), w').
Proof.
  apply (@load_after_save (small_json small_table)).
  - reflexivity.
  - vm_compute. lia.
  - reflexivity.
  - reflexivity.
Defined.

(** The listener that [onUpdate] makes of a callback. *)
Lemma onUpdate_open (w : Sync) (ch : BroadcastChannel)
    (callback : AppData.t -> ChatState -> ChatState) :
  channel (syncManager w) = Some ch ->
  onUpdate callback w
  = (Ok tt,
     {| localStorage := localStorage w;
        posted := posted w;
        syncManager :=
          {| channel :=
               Some {| closed := closed ch;
                       listeners :=
                         listeners ch
                         ++ [fun event st =>
                               match event with
                               | DataUpdate data => callback data st
                               | Update _ _ => st
                               end] |};
             storageKey := storageKey (syncManager w) |} |}).
Proof.
  intros Hch. unfold onUpdate, bind, get, try_catch, addEventListener, set_channel.
  cbv beta iota. rewrite Hch. reflexivity.
Qed.

Lemma subscribed_open (callbacks : list (AppData.t -> ChatState -> ChatState))
    (w : Sync) (ch : BroadcastChannel) :
  channel (syncManager w) = Some ch ->
  localStorage (subscribed callbacks w) = localStorage w
  /\ posted (subscribed callbacks w) = posted w
  /\ channel (syncManager (subscribed callbacks w))
     = Some {| closed := closed ch;
               listeners :=
                 listeners ch
                 ++ ((fun callback event st =>
                        match event with
                        | DataUpdate data => callback data st
                        | Update _ _ => st
                        end) <$> callbacks) |}.
Proof.
  revert w ch. induction callbacks as [|cb callbacks IH]; intros w ch Hch.
  - simpl. rewrite app_nil_r. destruct ch. auto.
  - unfold subscribed. cbn [foldl]. fold (subscribed callbacks (onUpdate cb w).2).
    rewrite (onUpdate_open w ch cb Hch). cbn [snd].
    match goal with
    | |- context [subscribed callbacks ?w1] =>
        destruct (IH w1 _ eq_refl) as (Hl & Hp & Hc)
    end.
    rewrite Hl, Hp, Hc. cbn. rewrite <- app_assoc. auto.
Qed.

(** X11. On a new manager, the callbacks given to [onUpdate] each get
    every snapshot that another tab saves, once and in the order they
    were given; a message of [broadcastUpdate] reaches none of them.
    Subscribing changes neither the storage nor what was posted. *)
Theorem subscribers_get_snapshots
    (callbacks : list (AppData.t -> ChatState -> ChatState)) (w : Sync) :
  syncManager w = RealTimeSync_new true ->
  let w' := subscribed callbacks w in
  localStorage w' = localStorage w
  /\ posted w' = posted w
  /\ (forall data st,
        deliver (DataUpdate data) w' st = foldl (fun st cb => cb data st) st callbacks)
  /\ (forall key users st, deliver (Update key users) w' st = st).
Proof.
  intros Hnew w'. subst w'.
  destruct (subscribed_open callbacks w {| closed := false; listeners := [] |})
    as (Hl & Hp & Hc); [rewrite Hnew; reflexivity|].
  split; [exact Hl|]. split; [exact Hp|].
  unfold deliver. rewrite Hc. cbn [closed listeners app].
  split.
  - intros data st. revert st. clear.
    induction callbacks as [|cb callbacks IH]; intros st; [reflexivity|].
    cbn. apply IH.
  - intros key users st. revert st. clear.
    induction callbacks as [|cb callbacks IH]; intros st; [reflexivity|].
    cbn. apply IH.
Qed.

(** X11 for the handler of the application. *)
Lemma subscribers_get_snapshots_witness :
  let w' := subscribed [handleDataUpdate (Some "300") "tmp"] (small_tab None 100) in
  localStorage w' = localStorage (small_tab None 100)
  /\ posted w' = posted (small_tab None 100)
  /\ (forall data st,
        deliver (DataUpdate data) w' st
        = foldl (fun st cb => cb data st) st [handleDataUpdate (Some "300") "tmp"])
  /\ (forall key users st, deliver (Update key users) w' st = st).
Proof.
  exact (subscribers_get_snapshots [handleDataUpdate (Some "300") "tmp"]
           (small_tab None 100) eq_refl).
Defined.

(** X12. [broadcastUpdate] never throws and touches neither the storage
    nor the manager; on an open channel it posts its one message, on a
    closed or missing one it does nothing. *)
Theorem broadcastUpdate_only_posts (w : Sync) (key : string) (users : list User.t) :
  let r := broadcastUpdate key users w in
  r.1 = Ok tt
  /\ localStorage r.2 = localStorage w
  /\ syncManager r.2 = syncManager w
  /\ posted r.2
     = match channel (syncManager w) with
       | Some ch => if closed ch then posted w else posted w ++ [Update key users]
       | None => posted w
       end.
Proof.
  cbv zeta. unfold broadcastUpdate, bind, get, ret, try_catch, postMessage.
  cbv beta iota.
  destruct (channel (syncManager w)) as [ch|]; [destruct (closed ch)|];
    repeat split; reflexivity.
Qed.

(** ** The update handler, again *)

(** X13. Applying a snapshot twice is applying it once. The handler
    never changes the selected room, the nickname or the id of the user;
    with a nickname it sets the account to the first account of the
    snapshot with that nickname, to none when there is no such account,
    and without a nickname it leaves the account. *)
Theorem handleDataUpdate_idempotent (selected : option string) (nick : string)
    (data : AppData.t) (st : ChatState) :
  let st' := handleDataUpdate selected nick data st in
  handleDataUpdate selected nick data st' = st'
  /\ selectedRoom st' = selectedRoom st
  /\ nickname st' = nickname st
  /\ currentUserId st' = currentUserId st
  /\ currentAccount st'
     = if truthy nick
       then AppData.accounts data ≫=
              List.find (fun acc => String.eqb (Account.nickname acc) nick)
       else currentAccount st.
Proof.
  cbv zeta. unfold handleDataUpdate.
  destruct (AppData.messages data) as [byRoom|], selected as [room|];
    try destruct (truthy room); destruct (truthy nick); repeat split.
Qed.

Section MainEffectFacts.
Context `{JSON}.

Lemma mainEffect_run (w : Sync) (st : ChatState) :
  mainEffect st w
  = (Ok match (loadData w).1 with
        | Ok (Some saved) => handleDataUpdate (selectedRoom st) (nickname st) saved st
        | _ => st
        end,
     (onUpdate (handleDataUpdate (selectedRoom st) (nickname st)) w).2).
Proof.
  unfold mainEffect, try_catch at 1, bind at 1.
  pose proof (loadData_ok w) as Hok.
  destruct (loadData w) as [[saved|e] w0] eqn:Hload; [|discriminate].
  assert (w0 = w) as -> by congruence. clear Hok. cbn [fst].
  unfold bind, ret.
  assert (Hnever : (onUpdate (handleDataUpdate (selectedRoom st) (nickname st)) w).1
                   = Ok tt).
  { unfold onUpdate, bind, get, ret, try_catch, addEventListener, set_channel.
    cbv beta iota. destruct (channel (syncManager w)); reflexivity. }
  destruct (onUpdate (handleDataUpdate (selectedRoom st) (nickname st)) w)
    as [[u|e] w1]; [|discriminate].
  destruct saved as [saved|]; reflexivity.
Qed.

(** X14. The main effect seeds the state from the storage exactly as
    the handler updates it from another tab: with a stored snapshot the
    state it sets is the handler's on that snapshot, with none the state
    stays; and on an open channel a snapshot saved by another tab is then
    handled by that handler, after the listeners there were. The effect
    never throws and writes nothing. *)
Theorem mainEffect_seeds (w : Sync) (st : ChatState) :
  let r := mainEffect st w in
  r.1 = Ok match (loadData w).1 with
           | Ok (Some saved) => handleDataUpdate (selectedRoom st) (nickname st) saved st
           | _ => st
           end
  /\ localStorage r.2 = localStorage w
  /\ posted r.2 = posted w
  /\ (forall ch, channel (syncManager w) = Some ch -> closed ch = false ->
      forall data st2,
        deliver (DataUpdate data) r.2 st2
        = handleDataUpdate (selectedRoom st) (nickname st) data
            (deliver (DataUpdate data) w st2)).
Proof.
  cbv zeta. rewrite mainEffect_run. cbn [fst snd]. split; [reflexivity|].
  destruct (channel (syncManager w)) as [ch|] eqn:Hch.
  - rewrite (onUpdate_open w ch _ Hch). cbn [snd localStorage posted].
    split; [reflexivity|]. split; [reflexivity|].
    intros ch' [= <-] Hopen data st2. unfold deliver. cbn. rewrite Hch, Hopen.
    rewrite foldl_app. reflexivity.
  - unfold onUpdate, bind, get, ret. cbv beta iota. rewrite Hch. cbn [snd].
    split; [reflexivity|]. split; [reflexivity|]. intros ch' [=].
Qed.

End MainEffectFacts.

(** ** Writing the state of the tab back *)

Section SyncDataFacts.
Context `{JSON}.

(** X15. [syncData] never throws. Its snapshot has the users and the
    rooms of the tab, the messages of the tab for the selected room, and
    from the storage the accounts and the messages of every other room.
    When the storage takes the text of the snapshot, that text is what is
    stored afterwards, and the snapshot is posted on an open channel;
    when the storage refuses it, nothing changes. *)
Theorem syncData_keeps_the_rest (w : Sync) (st : ChatState) :
  let loaded := default AppData.empty (returned None (loadData w).1) in
  let before := default ∅ (AppData.messages loaded) in
  exists data byRoom w',
    syncData st w = (Ok tt, w')
    /\ AppData.users data = Some (onlineUsers st)
    /\ AppData.rooms data = Some (chatRooms st)
    /\ AppData.accounts data = AppData.accounts loaded
    /\ AppData.messages data = Some byRoom
    /\ (forall room, selectedRoom st = Some room -> truthy room = true ->
          byRoom !! room = Some (messages st))
    /\ (forall other, selectedRoom st <> Some other -> byRoom !! other = before !! other)
    /\ syncManager w' = syncManager w
    /\ (denied (localStorage w) = false ->
        (String.length (JSON_stringify data) <= quota (localStorage w))%nat ->
        stored w' = Some (JSON_stringify data)
        /\ posted w'
           = match channel (syncManager w) with
             | Some ch => if closed ch then posted w else posted w ++ [DataUpdate data]
             | None => posted w
             end)
    /\ (denied (localStorage w) = true
        \/ (quota (localStorage w) < String.length (JSON_stringify data))%nat ->
        w' = w).
Proof.
  cbv zeta. unfold syncData, bind at 1. rewrite loadData_ok. cbv beta iota zeta.
  match goal with
  | |- context [saveData ?d w] =>
      destruct (saveData_outcome w d) as (w' & Hsave & Hm & _);
      pose proof (saveData_accepted w d) as Haccepted;
      pose proof (saveData_refused w d) as Hrefused;
      exists d
  end.
  eexists. exists w'. split; [exact Hsave|].
  cbn [AppData.users AppData.rooms AppData.accounts AppData.messages].
  split; [reflexivity|]. split; [reflexivity|]. split; [reflexivity|].
  split; [reflexivity|]. split; [|split; [|split; [exact Hm|split]]].
  - intros room Hsel Ht. rewrite Hsel, Ht. apply lookup_insert_eq.
  - intros other Hne. destruct (selectedRoom st) as [room|]; [|reflexivity].
    destruct (truthy room); [|reflexivity].
    apply lookup_insert_ne. congruence.
  - intros Hd Hq. destruct (Haccepted Hd Hq) as (w1 & Hsave1 & Hs & _ & _ & _ & Hp).
    rewrite Hsave in Hsave1. injection Hsave1 as <-. split; [exact Hs | exact Hp].
  - intros Hno. rewrite (Hrefused Hno) in Hsave. congruence.
Qed.

End SyncDataFacts.

(** ** Joining *)

Lemma filter_nickname_complement (name : string) (l : list User.t) :
  filter (fun u => User.nickname u = name) (filter (fun u => User.nickname u <> name) l)
  = [].
Proof.
  induction l as [|u l IH]; [reflexivity|].
  rewrite (filter_cons (fun u => User.nickname u <> name)).
  destruct (decide (User.nickname u <> name)) as [Hne|Heq]; [|exact IH].
  rewrite filter_cons_False by exact Hne. exact IH.
Qed.

Section JoinFacts.
Context `{JSON}.

Lemma broadcastUpdate_run (w : Sync) (key : string) (users : list User.t) :
  exists w',
    broadcastUpdate key users w = (Ok tt, w')
    /\ localStorage w' = localStorage w
    /\ syncManager w' = syncManager w.
Proof.
  unfold broadcastUpdate, bind, get, ret, try_catch, postMessage. cbv beta iota.
  destruct (channel (syncManager w)) as [ch|]; [destruct (closed ch)|];
    eexists; repeat split; reflexivity.
Qed.

(** [handleJoinWithAccount] by what it loads. *)
Lemma handleJoinWithAccount_run (w : Sync) (s : Session) (userIdTime joinedAt : Z)
    (account : Account.t) :
  let loaded := returned None (loadData w).1 in
  let me := account_user userIdTime joinedAt account in
  let users :=
    filter (fun u => User.nickname u <> Account.nickname account)
      (default [] (loaded ≫= AppData.users)) ++ [me] in
  let data := AppData.with_users users (default AppData_none loaded) in
  exists w',
    handleJoinWithAccount userIdTime joinedAt account s w
    = (Ok (set_chat (setOnlineUsers users)
             (setIsJoined true
                (set_chat (setCurrentUserId (pretty userIdTime))
                   (setCurrentUser (Account.nickname account) s)))), w')
    /\ syncManager w' = syncManager w
    /\ denied (localStorage w') = denied (localStorage w)
    /\ quota (localStorage w') = quota (localStorage w)
    /\ (localStorage w' = localStorage w \/ stored w' = Some (JSON_stringify data))
    /\ (denied (localStorage w) = false ->
        (String.length (JSON_stringify data) <= quota (localStorage w))%nat ->
        stored w' = Some (JSON_stringify data)).
Proof.
  cbv zeta. unfold handleJoinWithAccount. cbv zeta. unfold bind at 1.
  pose proof (loadData_ok w) as Hok.
  destruct (loadData w) as [[loaded|e] w0]; [|discriminate].
  assert (w0 = w) as -> by congruence. clear Hok.
  cbv beta iota. cbn [fst returned].
  match goal with
  | |- context [saveData ?d] =>
      destruct (saveData_outcome w d) as (w1 & Hsave & Hm & Hd & Hq & Hout);
      pose proof (saveData_writes w d) as Hwrites
  end.
  unfold bind at 1. rewrite Hsave. cbv beta iota.
  match goal with
  | |- context [broadcastUpdate ?k ?u] =>
      destruct (broadcastUpdate_run w1 k u) as (w2 & Hb & Hl2 & Hm2)
  end.
  unfold bind. rewrite Hb. cbv beta iota. unfold ret.
  exists w2. split; [reflexivity|].
  split; [congruence|]. split; [congruence|]. split; [congruence|].
  assert (Hstored : stored w2 = stored w1) by (unfold stored; congruence).
  split.
  - destruct Hout as [->|Hs]; [left; exact Hl2 | right; congruence].
  - intros Hnd Hfit. destruct (Hwrites Hnd Hfit) as (w1' & Hsave' & Hs' & _).
    rewrite Hsave in Hsave'. injection Hsave' as <-. congruence.
Qed.

(** What [broadcastUpdate] posts. *)
Lemma broadcastUpdate_posts (w : Sync) (key : string) (users : list User.t) :
  exists w',
    broadcastUpdate key users w = (Ok tt, w')
    /\ localStorage w' = localStorage w
    /\ syncManager w' = syncManager w
    /\ posted w'
       = match channel (syncManager w) with
         | Some ch => if closed ch then posted w else posted w ++ [Update key users]
         | None => posted w
         end.
Proof.
  unfold broadcastUpdate, bind, get, ret, try_catch, postMessage. cbv beta iota.
  destruct (channel (syncManager w)) as [ch|]; [destruct (closed ch)|];
    eexists; repeat split; reflexivity.
Qed.

(** X16. [handleJoinWithAccount] never throws. It marks the session as
    joined under the nickname of the account, with a new user id; the
    list of users it sets is the stored list without the users of that
    nickname, then the new user, so that exactly one user bears the
    nickname. Its snapshot has that list and the rooms, messages and
    accounts that were stored. When the storage takes the text of the
    snapshot, that text is what is stored afterwards, and an open channel
    gets the snapshot and then the list of users; when the storage
    refuses it, the storage stays and an open channel gets the list of
    users alone. *)
Theorem join_keeps_one_user_per_nickname (w : Sync) (s : Session)
    (userIdTime joinedAt : Z) (account : Account.t) :
  let loaded := returned None (loadData w).1 in
  let stored_users := default [] (loaded ≫= AppData.users) in
  let me := account_user userIdTime joinedAt account in
  exists s' w' data,
    handleJoinWithAccount userIdTime joinedAt account s w = (Ok s', w')
    /\ isJoined s' = true
    /\ currentUser s' = Account.nickname account
    /\ currentUserId (chat s') = User.id me
    /\ onlineUsers (chat s')
       = filter (fun u => User.nickname u <> Account.nickname account) stored_users ++ [me]
    /\ filter (fun u => User.nickname u = Account.nickname account) (onlineUsers (chat s'))
       = [me]
    /\ AppData.users data = Some (onlineUsers (chat s'))
    /\ AppData.rooms data = loaded ≫= AppData.rooms
    /\ AppData.messages data = loaded ≫= AppData.messages
    /\ AppData.accounts data = loaded ≫= AppData.accounts
    /\ syncManager w' = syncManager w
    /\ (denied (localStorage w) = false ->
        (String.length (JSON_stringify data) <= quota (localStorage w))%nat ->
        stored w' = Some (JSON_stringify data)
        /\ posted w'
           = match channel (syncManager w) with
             | Some ch =>
                 if closed ch then posted w
                 else posted w ++ [DataUpdate data; Update "users" (onlineUsers (chat s'))]
             | None => posted w
             end)
    /\ (denied (localStorage w) = true
        \/ (quota (localStorage w) < String.length (JSON_stringify data))%nat ->
        localStorage w' = localStorage w
        /\ posted w'
           = match channel (syncManager w) with
             | Some ch =>
                 if closed ch then posted w
                 else posted w ++ [Update "users" (onlineUsers (chat s'))]
             | None => posted w
             end).
Proof.
  cbv zeta. unfold handleJoinWithAccount. cbv zeta. unfold bind at 1.
  pose proof (loadData_ok w) as Hok.
  destruct (loadData w) as [[loaded|e] w0]; [|discriminate].
  assert (w0 = w) as -> by congruence. clear Hok.
  cbv beta iota. cbn [fst returned].
  match goal with
  | |- context [saveData ?d] =>
      destruct (saveData_outcome w d) as (w1 & Hsave & Hm & _);
      pose proof (saveData_accepted w d) as Haccepted;
      pose proof (saveData_refused w d) as Hrefused;
      set (data := d) in *
  end.
  unfold bind at 1. rewrite Hsave. cbv beta iota.
  match goal with
  | |- context [broadcastUpdate ?k ?u] =>
      destruct (broadcastUpdate_posts w1 k u) as (w2 & Hb & Hl2 & Hm2 & Hp2)
  end.
  unfold bind. rewrite Hb. cbv beta iota. unfold ret.
  eexists. exists w2, data. split; [reflexivity|].
  cbn [isJoined currentUser chat set_chat setIsJoined setCurrentUser setOnlineUsers
       setCurrentUserId onlineUsers currentUserId].
  split; [reflexivity|]. split; [reflexivity|]. split; [reflexivity|].
  split; [reflexivity|]. split.
  { rewrite filter_app, filter_nickname_complement.
    rewrite filter_cons_True by reflexivity. reflexivity. }
  split; [reflexivity|].
  split; [destruct loaded; reflexivity|].
  split; [destruct loaded; reflexivity|].
  split; [destruct loaded; reflexivity|].
  split; [congruence|]. rewrite Hm in Hp2. split.
  - intros Hd Hq. destruct (Haccepted Hd Hq) as (w1' & Hsave1 & Hs & _ & _ & _ & Hp).
    rewrite Hsave in Hsave1. injection Hsave1 as <-.
    split; [unfold stored in *; congruence|].
    rewrite Hp2, Hp.
    destruct (channel (syncManager w)) as [ch|]; [|reflexivity].
    destruct (closed ch); [reflexivity|]. rewrite <- app_assoc. reflexivity.
  - intros Hno. rewrite (Hrefused Hno) in Hsave. injection Hsave as <-.
    split; [exact Hl2 | exact Hp2].
Qed.

End JoinFacts.

(** ** Accounts *)

Lemma nickname_taken_spec (name : string) (accounts : list Account.t) :
  nickname_taken name accounts = false -> name ∉ Account.nickname <$> accounts.
Proof.
  unfold nickname_taken. intros Hno Hin.
  apply list_elem_of_fmap in Hin as (acc & -> & Hacc).
  assert (existsb (fun a => String.eqb (Account.nickname a) (Account.nickname acc)) accounts
          = true) as Hyes.
  { apply existsb_exists. exists acc. split; [apply list_elem_of_In, Hacc|].
    apply String.eqb_refl. }
  congruence.
Qed.

Section AccountFacts.
Context `{JSON}.

(** X17. Signing up appends one account. With a password and a
    nickname that are not blank, the nickname not taken, and a storage
    that takes the writes and reads the first one back, [handleSignup]
    returns, the snapshot stored last lists the stored accounts followed
    by the new one, the nicknames of the accounts are still all
    different if they were, and the session is joined under the new
    account. *)
Theorem signup_appends_account (w : Sync) (s : Session)
    (idTime createdAt userIdTime joinedAt : Z) (signupNickname signupPassword : string) :
  let loaded := returned None (loadData w).1 in
  let existing := default [] (loaded ≫= AppData.accounts) in
  let newAccount := signup_account idTime createdAt (trim signupNickname) signupPassword in
  let first :=
    AppData.with_accounts (existing ++ [newAccount]) (default AppData_none loaded) in
  let final :=
    AppData.with_users
      (filter (fun u => User.nickname u <> trim signupNickname)
         (default [] (AppData.users first))
       ++ [account_user userIdTime joinedAt newAccount]) first in
  truthy (trim signupPassword) = true ->
  truthy (trim signupNickname) = true ->
  nickname_taken (trim signupNickname) existing = false ->
  denied (localStorage w) = false ->
  (String.length (JSON_stringify first) <= quota (localStorage w))%nat ->
  (String.length (JSON_stringify final) <= quota (localStorage w))%nat ->
  truthy (JSON_stringify first) = true ->
  JSON_parse (JSON_stringify first) = Ok (Some first) ->
  exists s' w',
    handleSignup idTime createdAt userIdTime joinedAt signupNickname signupPassword s w
    = (Ok s', w')
    /\ stored w' = Some (JSON_stringify final)
    /\ AppData.accounts final = Some (existing ++ [newAccount])
    /\ (NoDup (Account.nickname <$> existing) ->
        NoDup (Account.nickname <$> existing ++ [newAccount]))
    /\ currentAccount (chat s') = Some newAccount
    /\ nickname (chat s') = trim signupNickname
    /\ isJoined s' = true
    /\ alerts s' = alerts s.
Proof.
  cbv zeta. intros Hpw Hnick Hfree Hd Hq1 Hq2 Ht Hp.
  unfold handleSignup. rewrite Hpw, Hnick. cbn [negb orb].
  unfold bind at 1.
  pose proof (loadData_ok w) as Hok.
  destruct (loadData w) as [[loaded|e] w0]; [|discriminate].
  assert (w0 = w) as -> by congruence. clear Hok.
  cbn [fst returned] in *. cbv beta iota zeta. rewrite Hfree.
  fold (signup_account idTime createdAt (trim signupNickname) signupPassword) in *.
  set (newAccount := signup_account idTime createdAt (trim signupNickname) signupPassword) in *.
  set (first := AppData.with_accounts
                  (default [] (loaded ≫= AppData.accounts) ++ [newAccount])
                  (default AppData_none loaded)) in *.
  destruct (saveData_writes w first Hd Hq1) as (w1 & Hsave & Hs1 & Hd1 & Hquota1).
  unfold bind at 1. rewrite Hsave. cbv beta iota.
  assert (Hload1 : loadData w1 = (Ok (Some first), w1)).
  { rewrite (loadData_stored w1 _ Hd1 Hs1), Ht, Hp. reflexivity. }
  match goal with
  | |- context [handleJoinWithAccount _ _ _ ?s1 w1] =>
      destruct (handleJoinWithAccount_run w1 s1 userIdTime joinedAt newAccount)
        as (w2 & Hrun & _ & _ & _ & _ & Hfinal)
  end.
  rewrite Hload1 in Hrun, Hfinal. cbn [fst returned default mbind option_bind] in Hrun, Hfinal.
  eexists. exists w2. split; [exact Hrun|].
  split; [apply Hfinal; [exact Hd1 | rewrite Hquota1; exact Hq2]|].
  split; [reflexivity|]. split.
  - intros Hnodup. rewrite fmap_app. apply NoDup_app. split; [exact Hnodup|].
    split; [|apply NoDup_singleton].
    intros name Hin Hnew. apply list_elem_of_singleton in Hnew. subst name.
    apply (nickname_taken_spec _ _ Hfree). exact Hin.
  - cbn. repeat split; reflexivity.
Qed.

(** X18. A nickname that a stored account bears is refused, for a new
    account and for a temporary one: both handlers return, and the
    storage, the lists and the flag of the session stay as they were. *)
Theorem taken_nickname_is_refused (w : Sync) (s : Session)
    (idTime createdAt userIdTime joinedAt : Z) (name password : string) :
  nickname_taken (trim name)
    (default [] (returned None (loadData w).1 ≫= AppData.accounts)) = true ->
  exists s1 s2,
    handleSignup idTime createdAt userIdTime joinedAt name password s w = (Ok s1, w)
    /\ handleTempAccount idTime createdAt userIdTime joinedAt name s w = (Ok s2, w)
    /\ chat s1 = chat s /\ isJoined s1 = isJoined s
    /\ chat s2 = chat s /\ isJoined s2 = isJoined s.
Proof.
  intros Htaken. pose proof (loadData_ok w) as Hok.
  destruct (loadData w) as [[loaded|e] w0] eqn:Hload; [|discriminate].
  assert (w0 = w) as -> by congruence. clear Hok.
  cbn [fst returned] in Htaken. unfold handleSignup, handleTempAccount.
  destruct (truthy (trim name)), (truthy (trim password)); cbn [negb orb];
    unfold bind; rewrite ?Hload; cbv beta iota zeta; rewrite ?Htaken;
    do 2 eexists; repeat split.
Qed.

(** X19. A temporary account is never written to the storage:
    [handleTempAccount] returns, and the snapshot it leaves stored, if it
    stores one, lists the accounts that were loaded and no other. When it
    joins the session, the account of the session is temporary and has
    the empty password. *)
Theorem temporary_account_is_not_stored (w : Sync) (s : Session)
    (idTime createdAt userIdTime joinedAt : Z) (tempNickname : string) :
  let loaded := returned None (loadData w).1 in
  exists s' w',
    handleTempAccount idTime createdAt userIdTime joinedAt tempNickname s w = (Ok s', w')
    /\ (localStorage w' = localStorage w
        \/ exists data,
             stored w' = Some (JSON_stringify data)
             /\ AppData.accounts data = loaded ≫= AppData.accounts)
    /\ (s' = s \/ s' = alert "Account with this nickname already exists!" s
        \/ exists account,
             currentAccount (chat s') = Some account
             /\ Account.isTemporary account = Some true
             /\ Account.password account = ""
             /\ Account.nickname account = trim tempNickname
             /\ isJoined s' = true).
Proof.
  cbv zeta. unfold handleTempAccount.
  destruct (truthy (trim tempNickname)); cbn [negb];
    [|exists s, w; split; [reflexivity|]; split; [left; reflexivity | left; reflexivity]].
  unfold bind at 1.
  pose proof (loadData_ok w) as Hok.
  destruct (loadData w) as [[loaded|e] w0] eqn:Hload; [|discriminate].
  assert (w0 = w) as -> by congruence. clear Hok.
  cbn [fst returned]. cbv beta iota zeta.
  destruct (nickname_taken (trim tempNickname) (default [] (loaded ≫= AppData.accounts))).
  - eexists. exists w. split; [reflexivity|].
    split; [left; reflexivity | right; left; reflexivity].
  - match goal with
    | |- context [handleJoinWithAccount _ _ ?a ?s1 w] =>
        destruct (handleJoinWithAccount_run w s1 userIdTime joinedAt a)
          as (w2 & Hrun & _ & _ & _ & Hout & _)
    end.
    rewrite Hload in Hrun, Hout. cbn [fst returned] in Hrun, Hout.
    eexists. exists w2. split; [exact Hrun|]. split.
    + destruct Hout as [Hsame|Hstored]; [left; exact Hsame|].
      right. eexists. split; [exact Hstored|].
      destruct loaded; reflexivity.
    + right. right. eexists. cbn. repeat split; reflexivity.
Qed.

(** X20. Logging in needs the password. [handleLogin] returns, and
    either it joins the session as a stored account that has the
    nickname typed (trimmed) and exactly the password typed, which is not
    blank, or it changes neither the storage nor the session but for an
    alert. An account with the empty password, as the temporary ones,
    cannot be logged into. *)
Theorem login_needs_the_password (w : Sync) (s : Session) (userIdTime joinedAt : Z)
    (loginNickname loginPassword : string) :
  let existing := default [] (returned None (loadData w).1 ≫= AppData.accounts) in
  exists s' w',
    handleLogin userIdTime joinedAt loginNickname loginPassword s w = (Ok s', w')
    /\ ((exists account,
           account ∈ existing
           /\ Account.nickname account = trim loginNickname
           /\ Account.password account = loginPassword
           /\ truthy (trim loginPassword) = true
           /\ loginPassword <> ""
           /\ currentAccount (chat s') = Some account
           /\ isJoined s' = true)
        \/ (w' = w /\ chat s' = chat s /\ isJoined s' = isJoined s)).
Proof.
  cbv zeta. unfold handleLogin.
  destruct (truthy (trim loginNickname)) eqn:Hn; cbn [negb orb];
    [|exists s, w; split; [reflexivity | right; repeat split]].
  destruct (truthy (trim loginPassword)) eqn:Hpw; cbn [negb];
    [|exists s, w; split; [reflexivity | right; repeat split]].
  unfold bind at 1.
  pose proof (loadData_ok w) as Hok.
  destruct (loadData w) as [[loaded|e] w0] eqn:Hload; [|discriminate].
  assert (w0 = w) as -> by congruence. clear Hok.
  cbn [fst returned]. cbv beta iota zeta.
  destruct (find _ (default [] (loaded ≫= AppData.accounts))) as [account|] eqn:Hfind.
  - apply find_some in Hfind as [Hin Hmatch].
    apply andb_true_iff in Hmatch as [Hname Hpass].
    apply String.eqb_eq in Hname, Hpass.
    match goal with
    | |- context [handleJoinWithAccount _ _ _ ?s1 w] =>
        destruct (handleJoinWithAccount_run w s1 userIdTime joinedAt account)
          as (w2 & Hrun & _)
    end.
    eexists. exists w2. split; [exact Hrun|]. left. exists account.
    split; [apply list_elem_of_In, Hin|]. split; [exact Hname|]. split; [exact Hpass|].
    split; [reflexivity|]. split; [|cbn; split; reflexivity].
    intros ->. revert Hpw. vm_compute. discriminate.
  - eexists. exists w. split; [reflexivity|]. right. repeat split.
Qed.

End AccountFacts.

(** X17 on the sign-up of "carol", typed with spaces around. *)
Lemma signup_appends_account_witness :
  exists s' w',
    @handleSignup (small_json signup_table) 400 401 402 403 " carol " "pw"
      (blank_session (temp_session [])) (small_tab (Some "101,201|200") 100)
    = (Ok s', w')
    /\ stored w' = Some "101,201,402|200,400"
    /\ currentAccount (chat s') = Some carol_account
    /\ isJoined s' = true.
Proof.
  destruct (@signup_appends_account (small_json signup_table)
              (small_tab (Some "101,201|200") 100) (blank_session (temp_session []))
              400 401 402 403 " carol " "pw")
    as (s' & w' & Hrun & Hstored & _ & _ & Haccount & _ & Hjoined & _).
  - reflexivity.
  - reflexivity.
  - reflexivity.
  - reflexivity.
  - vm_compute. lia.
  - vm_compute. lia.
  - reflexivity.
  - reflexivity.
  - exists s', w'. split; [exact Hrun|]. split; [exact Hstored|].
    split; [exact Haccount | exact Hjoined].
Defined.

(** X18 on the nickname of a stored account. *)
Lemma taken_nickname_is_refused_witness :
  exists s1 s2,
    @handleSignup (small_json small_table) 400 401 402 403 "bob " "pw"
      (blank_session (temp_session [])) (small_tab (Some "101,201|100,200") 100)
    = (Ok s1, small_tab (Some "101,201|100,200") 100)
    /\ @handleTempAccount (small_json small_table) 400 401 402 403 "bob "
         (blank_session (temp_session [])) (small_tab (Some "101,201|100,200") 100)
       = (Ok s2, small_tab (Some "101,201|100,200") 100)
    /\ alerts s1 = ["Account with this nickname already exists!"]
    /\ alerts s2 = ["Account with this nickname already exists!"].
Proof.
  destruct (@taken_nickname_is_refused (small_json small_table)
              (small_tab (Some "101,201|100,200") 100) (blank_session (temp_session []))
              400 401 402 403 "bob " "pw")
    as (s1 & s2 & H1 & H2 & _); [reflexivity|].
  exists s1, s2. split; [exact H1|]. split; [exact H2|].
  injection H1 as <-. injection H2 as <-. split; reflexivity.
Defined.

(** ** Rooms and times *)

(** X21. A room with a password is entered through the dialog only.
    [handleRoomJoin] on such a room opens the dialog and does not call
    [joinRoom]; [handlePasswordSubmit] then calls [joinRoom] for the room
    exactly when the text typed is the password of the room, and shows
    the error otherwise. A room without a password, and an id that no
    room has, go to [joinRoom] at once. *)
Theorem password_gate (chatRooms : list Room.t) (roomId : string) (d : RoomDialogs)
    (typed : string) :
  let asked := handleRoomJoin chatRooms roomId d in
  let answered := handlePasswordSubmit chatRooms (setPasswordInput typed asked.1) in
  match find_room chatRooms roomId with
  | Some room =>
      if Room.hasPassword room then
        asked.2 = None
        /\ pendingRoomId asked.1 = Some roomId
        /\ showPasswordDialog asked.1 = true
        /\ (truthy roomId = true ->
            (answered.2 = Some roomId <-> Room.password room = Some typed)
            /\ (answered.2 = None \/ answered.2 = Some roomId)
            /\ (answered.2 = None ->
                passwordError answered.1 = "Incorrect password. Please try again."
                /\ pendingRoomId answered.1 = Some roomId))
      else asked = (d, Some roomId)
  | None => asked = (d, Some roomId)
  end.
Proof.
  cbv zeta. unfold handleRoomJoin.
  destruct (find_room chatRooms roomId) as [room|] eqn:Hfind; [|reflexivity].
  destruct room as [rid rname rcount rhas rpw rdesc rby]. cbn [Room.hasPassword].
  destruct rhas; [|reflexivity].
  cbn [fst snd pendingRoomId showPasswordDialog].
  split; [reflexivity|]. split; [reflexivity|]. split; [reflexivity|].
  intros Htruthy. unfold handlePasswordSubmit, setPasswordInput.
  cbn [pendingRoomId passwordInput showPasswordDialog passwordError].
  rewrite Htruthy, Hfind. cbn [mbind option_bind Room.password].
  destruct rpw as [pw|]; cbn.
  - destruct (String.eqb_spec pw typed) as [->|Hne]; cbn.
    + split; [tauto|]. split; [right; reflexivity | discriminate].
    + split; [split; [discriminate | congruence]|].
      split; [left; reflexivity|]. intros _. split; reflexivity.
  - split; [split; discriminate|].
    split; [left; reflexivity|]. intros _. split; reflexivity.
Qed.

(** X22. [formatJoinTime] by the age in milliseconds: below a minute,
    and for a date in the future, "Just joined"; then the whole minutes,
    from 1 to 59; then the whole hours, from 1 to 23; from 24 hours on,
    however long, "Yesterday". *)
Theorem formatJoinTime_ranges (now date : Z) :
  let age := now - date in
  (age < 60000 -> formatJoinTime now date = "Just joined")
  /\ (60000 <= age < 3600000 ->
      1 <= age / 60000 <= 59
      /\ formatJoinTime now date = pretty (age / 60000) +:+ "m ago")
  /\ (3600000 <= age < 86400000 ->
      1 <= age / 3600000 <= 23
      /\ formatJoinTime now date = pretty (age / 3600000) +:+ "h ago")
  /\ (86400000 <= age -> formatJoinTime now date = "Yesterday").
Proof.
  cbv zeta. unfold formatJoinTime. cbv zeta.
  change (1000 * 60) with 60000.
  assert (Hhours : (now - date) / 60000 / 60 = (now - date) / 3600000).
  { rewrite Z.div_div by lia. reflexivity. }
  rewrite Hhours.
  split; [|split; [|split]].
  - intros Hage.
    replace ((now - date) / 60000 <? 1) with true by (symmetry; apply Z.ltb_lt; lia).
    reflexivity.
  - intros Hage. split; [lia|].
    replace ((now - date) / 60000 <? 1) with false by (symmetry; apply Z.ltb_ge; lia).
    replace ((now - date) / 60000 <? 60) with true by (symmetry; apply Z.ltb_lt; lia).
    reflexivity.
  - intros Hage. split; [lia|].
    replace ((now - date) / 60000 <? 1) with false by (symmetry; apply Z.ltb_ge; lia).
    replace ((now - date) / 60000 <? 60) with false by (symmetry; apply Z.ltb_ge; lia).
    replace ((now - date) / 3600000 <? 24) with true by (symmetry; apply Z.ltb_lt; lia).
    reflexivity.
  - intros Hage.
    replace ((now - date) / 60000 <? 1) with false by (symmetry; apply Z.ltb_ge; lia).
    replace ((now - date) / 60000 <? 60) with false by (symmetry; apply Z.ltb_ge; lia).
    replace ((now - date) / 3600000 <? 24) with false by (symmetry; apply Z.ltb_ge; lia).
    reflexivity.
Qed.

Example formatJoinTime_minutes : formatJoinTime 1700000300000 1700000000000 = "5m ago".
Proof. reflexivity. Qed.

Example formatJoinTime_week : formatJoinTime 1700604800000 1700000000000 = "Yesterday".
Proof. reflexivity. Qed.

Example password_gate_secret :
  (handlePasswordSubmit [general_room; secret_room]
     (setPasswordInput "swordfish"
        (handleRoomJoin [general_room; secret_room] "301" closed_dialogs).1)).2
  = Some "301".
Proof. reflexivity. Qed.
